(** * LocalGrid: offline token counting and context-window lookup

    A shallow embedding of [src/localgrid/core.py] (class [LocalGrid]) and of
    the import statement of [src/localgrid/__init__.py], with the properties
    of its natural-language specification stated and settled against it.

    Python values are modelled as follows.
    - [int] is [Z]; [len] is [Z.of_nat] of a length; [//] is [Z.div].
    - [str] is [string]; a character is one [ascii] element, so the model
      covers ASCII text (where code points and bytes coincide).
    - a [dict] looked up by key is a [gmap string _]; the provider dictionary
      [_db], whose iteration order matters, is an association list in
      insertion order.
    - the [set] literal [TOKENIZER_MAP] is a list of its elements; the order
      in which the interpreter iterates over it is a separate parameter,
      constrained only to be a permutation of the literal.
    - an exception is a value of [exn]; a computation that may raise has
      type [outcome A].

    The store is modelled twice: as the data directory's schema has it (the
    data model, in which most properties are stated), and as [json.load] can
    deliver it, with any JSON value in any place; the two queries agree on
    the stores of the schema. *)

From Stdlib Require Import ZArith Ascii Permutation SpecFloat.
From stdpp Require Import base tactics option list gmap strings pretty.

Local Open Scope Z_scope.

(** ** Python built-ins used by the source *)

Module Py.

Inductive exn : Type :=
| ValueError
| TypeError
| ImportError
| OtherException (msg : string).

Inductive outcome (A : Type) : Type :=
| Return (a : A)
| Raise (e : exn).
Arguments Return {A} a.
Arguments Raise {A} e.

Definition bind {A B} (m : outcome A) (k : A → outcome B) : outcome B :=
  match m with
  | Return a => k a
  | Raise e => Raise e
  end.

Definition is_value_or_type_error (e : exn) : bool :=
  match e with
  | ValueError | TypeError => true
  | _ => false
  end.

(** [try: body / except (ValueError, TypeError): pass], followed by
    [rest]: a normal result of [body] is a [return]; a caught exception
    lets control continue with [rest]; any other exception propagates. *)
Definition try_except_value_type {A} (body rest : outcome A) : outcome A :=
  match body with
  | Return a => Return a
  | Raise e => if is_value_or_type_error e then rest else Raise e
  end.

(** *** Characters and strings *)

Definition code (c : ascii) : Z := Z.of_N (N_of_ascii c).

Definition is_digit (c : ascii) : bool := (48 <=? code c) && (code c <=? 57).

Definition digit_value (c : ascii) : Z := code c - 48.

(** The white space that [int] skips: space, and [\t \n \v \f \r]. *)
Definition is_space (c : ascii) : bool :=
  (code c =? 32) || ((9 <=? code c) && (code c <=? 13)).

Definition upper_char (c : ascii) : ascii :=
  if (97 <=? code c) && (code c <=? 122)
  then ascii_of_N (N_of_ascii c - 32)
  else c.

(** [s.upper()] *)
Fixpoint upper (s : string) : string :=
  match s with
  | EmptyString => EmptyString
  | String c s' => String (upper_char c) (upper s')
  end.

(** [c in s] for a one-character [c] *)
Fixpoint has_char (c : ascii) (s : string) : bool :=
  match s with
  | EmptyString => false
  | String d s' => Ascii.eqb c d || has_char c s'
  end.

(** [s.replace(c, '')] for a one-character [c] *)
Fixpoint remove_char (c : ascii) (s : string) : string :=
  match s with
  | EmptyString => EmptyString
  | String d s' =>
      if Ascii.eqb c d then remove_char c s' else String d (remove_char c s')
  end.

Fixpoint is_prefix (p s : string) : bool :=
  match p, s with
  | EmptyString, _ => true
  | String a p', String b s' => Ascii.eqb a b && is_prefix p' s'
  | String _ _, EmptyString => false
  end.

(** [sub in s] for strings *)
Fixpoint str_in (sub s : string) : bool :=
  is_prefix sub s ||
  match s with
  | EmptyString => false
  | String _ s' => str_in sub s'
  end.

(** [s.split(c, 1)[0]]: the text before the first [c] (all of [s] when
    [c] does not occur). *)
Fixpoint split_head (c : ascii) (s : string) : string :=
  match s with
  | EmptyString => EmptyString
  | String d s' => if Ascii.eqb c d then EmptyString else String d (split_head c s')
  end.

(** [s.split(c, 1)[1]]: the text after the first [c]; the source reads it
    only under the guard [c in s]. *)
Fixpoint split_tail (c : ascii) (s : string) : string :=
  match s with
  | EmptyString => EmptyString
  | String d s' => if Ascii.eqb c d then s' else split_tail c s'
  end.

Fixpoint all_space (s : string) : bool :=
  match s with
  | EmptyString => true
  | String c s' => is_space c && all_space s'
  end.

Fixpoint lstrip (s : string) : string :=
  match s with
  | EmptyString => EmptyString
  | String c s' => if is_space c then lstrip s' else s
  end.

(** *** [int(...)] on a string

    Base-10 integer literals as the interpreter reads them: optional
    white space, an optional sign, decimal digits that may be separated by
    single underscores, optional white space.  Anything else is a
    [ValueError]. *)

(** Default of [sys.get_int_max_str_digits()]: a literal with more digits
    is rejected with [ValueError]. *)
Definition int_max_str_digits : nat := 4300.

(** Reads the digits; [acc] is the value so far and [cnt] the number of
    digits read.  Returns the value, the digit count and the unread rest,
    or [None] when an underscore is not followed by a digit. *)
Fixpoint scan_digits (s : string) (acc : Z) (cnt : nat)
  : option (Z * nat * string) :=
  match s with
  | EmptyString => Some (acc, cnt, EmptyString)
  | String c s' =>
      if is_digit c then scan_digits s' (acc * 10 + digit_value c) (S cnt)
      else if Ascii.eqb c "_" then
        match s' with
        | String d s'' =>
            if is_digit d
            then scan_digits s'' (acc * 10 + digit_value d) (S cnt)
            else None
        | EmptyString => None
        end
      else Some (acc, cnt, s)
  end.

Definition unsigned_of_str (s : string) : outcome Z :=
  match s with
  | String c _ =>
      if is_digit c then
        match scan_digits s 0 0%nat with
        | Some (v, cnt, rest) =>
            if all_space rest && (cnt <=? int_max_str_digits)%nat
            then Return v
            else Raise ValueError
        | None => Raise ValueError
        end
      else Raise ValueError
  | EmptyString => Raise ValueError
  end.

Definition int_of_str (s : string) : outcome Z :=
  match lstrip s with
  | String c s' =>
      if Ascii.eqb c "+" then unsigned_of_str s'
      else if Ascii.eqb c "-" then bind (unsigned_of_str s') (λ v, Return (- v))
      else unsigned_of_str (String c s')
  | EmptyString => unsigned_of_str EmptyString
  end.

(** *** The values a JSON [context] field holds in the data model: [null],
    a boolean, an integer or a string.  Floats, arrays and objects in that
    field belong to the loaded store, [json], further down. *)
Inductive value : Type :=
| PyNone
| PyBool (b : bool)
| PyInt (z : Z)
| PyStr (s : string).

(** [str(v)]; the integers of a loaded store are short enough for [str]
    to render them. *)
Definition str (v : value) : string :=
  match v with
  | PyNone => "None"
  | PyBool true => "True"
  | PyBool false => "False"
  | PyInt z => pretty z
  | PyStr s => s
  end.

(** [int(v)] *)
Definition int (v : value) : outcome Z :=
  match v with
  | PyNone => Raise TypeError
  | PyBool b => Return (if b then 1 else 0)
  | PyInt z => Return z
  | PyStr s => int_of_str s
  end.

End Py.

Import Py.

(** ** Data model *)

(** A [VariantRecord] is the JSON object stored under a tag ([tag_data] in
    the source): a dictionary from field names to values, of which the
    source reads the field ["context"]. *)
Abbreviation VariantRecord := (gmap string value).

(** A [ModelRecord] is one element of a provider file: its [parent_model]
    name and, when the key is present, its [variants] dictionary. *)
Record ModelRecord : Type := {
  parent_model : string;
  variants : option (gmap string VariantRecord)
}.

(** [provider_data]: [parent_model] name to model record. *)
Abbreviation ProviderRecord := (gmap string ModelRecord).

(** [self._db]: provider name to provider data, in insertion order. *)
Abbreviation Store := (list (string * ProviderRecord)).

(** [d.values()] *)
Definition values {K V} (d : list (K * V)) : list V := map snd d.

Definition DEFAULT_TOKEN_LIMIT : Z := 8192.
Definition FALLBACK_TOKEN_RATIO : Z := 4.

(** ** Metadata store query: [get_model_token_limit] *)

(** [provider_data.get(parent_name, {}).get('variants', {}).get(tag)], in a
    store that follows the schema; [raw_tag_data], further down, is the same
    chain over whatever was loaded. *)
Definition tag_lookup (provider_data : ProviderRecord) (parent_name tag : string)
  : option VariantRecord :=
  match provider_data !! parent_name with
  | Some model =>
      match variants model with
      | Some vs => vs !! tag
      | None => None
      end
  | None => None
  end.

(** Truth value of a dictionary: [False] exactly when it is empty. *)
Definition truthy (tag_data : VariantRecord) : bool :=
  negb (bool_decide (tag_data = ∅)).

(** [tag_data.get('context', '8K')] *)
Definition context_of (tag_data : VariantRecord) : value :=
  default (PyStr "8K") (tag_data !! "context").

(** The body of the [try] block, for one [context_str]. *)
Definition interpret_context (context_str : value) : outcome Z :=
  if has_char "K" (upper (str context_str)) then
    bind (int (PyStr (remove_char "K" (upper (str context_str)))))
         (λ n, Return (n * 1024))
  else
    bind (int context_str)
         (λ numeric_value,
            if numeric_value <=? 1000
            then Return (numeric_value * 1024)
            else Return numeric_value).

(** The [for provider_data in self._db.values()] loop, followed by the final
    [return self.DEFAULT_TOKEN_LIMIT]. *)
Fixpoint scan_providers (providers : list ProviderRecord)
    (parent_name tag : string) : outcome Z :=
  match providers with
  | [] => Return DEFAULT_TOKEN_LIMIT
  | provider_data :: rest =>
      match tag_lookup provider_data parent_name tag with
      | Some tag_data =>
          if truthy tag_data then
            try_except_value_type
              (interpret_context (context_of tag_data))
              (scan_providers rest parent_name tag)
          else scan_providers rest parent_name tag
      | None => scan_providers rest parent_name tag
      end
  end.

Definition get_model_token_limit (_db : Store) (model_name : string) : outcome Z :=
  if has_char ":" model_name then
    let parent_name := split_head ":" model_name in
    let tag := split_tail ":" model_name in
    scan_providers (values _db) parent_name tag
  else Return DEFAULT_TOKEN_LIMIT.

(** The store of [tests/test_script.py] ([MOCK_DB_DATA]). *)
Definition MOCK_DB_DATA : Store :=
  [("ollama",
    {[ "llama3.1" :=
         {| parent_model := "llama3.1";
            variants := Some {[ "latest" := {[ "context" := PyStr "128K" ]};
                                "8b" := {[ "context" := PyInt 128 ]} ]} |};
       "gemma" :=
         {| parent_model := "gemma";
            variants := Some {[ "latest" := {[ "context" := PyInt 8192 ]};
                                "2b" := {[ "context" := PyStr "N/A" ]} ]} |};
       "phi-3" :=
         {| parent_model := "phi-3";
            variants := Some {[ "mini" := ∅ ]} |} ]})].

(** ** Tokenizer resolver *)

(** The set literal [TOKENIZER_MAP], in the order it is written. *)
Definition TOKENIZER_MAP : list string :=
  ["aya"; "codellama"; "codestral"; "command-r"; "dbrx"; "deepseek";
   "falcon"; "gemma"; "granite"; "llama"; "mistral"; "mixtral"; "olmo";
   "phi"; "qwen"; "solar"; "starcoder"; "yi"].

(** The generic default engine, a [tiktoken.Encoding]:
    [enc_encode text disallowed_special]. *)
Record Encoding : Type := {
  enc_name : string;
  enc_encode : string → list string → outcome (list Z)
}.

(** A tokenizer loaded by [AutoTokenizer.from_pretrained]:
    [hf_encode text add_special_tokens]. *)
Record PreTrainedTokenizer : Type := {
  name_or_path : string;
  hf_encode : string → bool → outcome (list Z)
}.

(** What [_get_tokenizer] hands out.  Both kinds of object are truthy and
    the second kind has an [encode] attribute, as the bundled-asset
    interface promises; Python's [None] is [None] of [option tokenizer]. *)
Inductive tokenizer : Type :=
| TikToken (e : Encoding)
| HuggingFace (t : PreTrainedTokenizer).

(** Fixed for the life of the interpreter process: the order in which
    [for family in self.TOKENIZER_MAP] visits the set, and
    [os.path.dirname(os.path.abspath(__file__))]. *)
Record Process : Type := {
  set_order : list string;
  base_path : string
}.

(** The bundled tokenizer assets as one call sees them: [os.path.exists]
    and [AutoTokenizer.from_pretrained]. *)
Record Env : Type := {
  path_exists : string → bool;
  from_pretrained : string → outcome PreTrainedTokenizer
}.

(** What a call does outside the instance, in order. *)
Inductive event : Type :=
| EvExists (path : string) (found : bool)
| EvFromPretrained (path : string) (loaded : bool)
| EvWarning (tokenizer_dir_name : string) (err : exn).

(** The instance attributes set by [__init__]. *)
Record LocalGrid : Type := {
  _db : Store;
  _tokenizer_cache : gmap string PreTrainedTokenizer;
  _default_tokenizer : option Encoding
}.

(** [__init__], given what [_load_all_dbs()] returned and how
    [tiktoken.get_encoding("cl100k_base")] ended. *)
Definition __init__ (loaded : Store) (get_encoding : outcome Encoding) : LocalGrid :=
  {| _db := loaded;
     _tokenizer_cache := ∅;
     _default_tokenizer :=
       match get_encoding with
       | Return e => Some e
       | Raise _ => None
       end |}.

Definition ends_with_sep (path : string) : bool :=
  match last (String.list_ascii_of_string path) with
  | Some c => Ascii.eqb c "/"
  | None => false
  end.

(** One step of [os.path.join] (POSIX). *)
Definition join2 (path b : string) : string :=
  if is_prefix "/" b then b
  else if String.eqb path EmptyString || ends_with_sep path then path +:+ b
  else path +:+ "/" +:+ b.

(** [os.path.join(a, *p)] *)
Definition path_join (a : string) (p : list string) : string := foldl join2 a p.

Definition tokenizer_path (base : string) (tokenizer_dir_name : string) : string :=
  path_join base ["tokenizers"; tokenizer_dir_name].

(** The [for family in self.TOKENIZER_MAP: if family in family_name: ... break]
    loop; [None] when no family matches. *)
Definition detect_family (order : list string) (family_name : string)
  : option string :=
  find (λ family, str_in family family_name) order.

Definition default_tokenizer (self : LocalGrid) : option tokenizer :=
  TikToken <$> _default_tokenizer self.

Definition cache_store (self : LocalGrid) (k : string) (t : PreTrainedTokenizer)
  : LocalGrid :=
  {| _db := _db self;
     _tokenizer_cache := <[k := t]> (_tokenizer_cache self);
     _default_tokenizer := _default_tokenizer self |}.

(** [_get_tokenizer]: the object returned, the instance afterwards and the
    events of the call. *)
Definition _get_tokenizer (P : Process) (env : Env) (self : LocalGrid)
    (model_name : string) : option tokenizer * LocalGrid * list event :=
  if has_char ":" model_name then
    let family_name := split_head ":" model_name in
    match detect_family (set_order P) family_name with
    | None | Some EmptyString => (default_tokenizer self, self, [])
    | Some tokenizer_dir_name =>
        match _tokenizer_cache self !! tokenizer_dir_name with
        | Some tokenizer => (Some (HuggingFace tokenizer), self, [])
        | None =>
            let path := tokenizer_path (base_path P) tokenizer_dir_name in
            if path_exists env path then
              match from_pretrained env path with
              | Return tokenizer =>
                  (Some (HuggingFace tokenizer),
                   cache_store self tokenizer_dir_name tokenizer,
                   [EvExists path true; EvFromPretrained path true])
              | Raise err =>
                  (default_tokenizer self, self,
                   [EvExists path true; EvFromPretrained path false;
                    EvWarning tokenizer_dir_name err])
              end
            else (default_tokenizer self, self, [EvExists path false])
        end
    end
  else (default_tokenizer self, self, []).

(** [len(ids)] *)
Definition len {A} (l : list A) : Z := Z.of_nat (length l).

(** [count_tokens] *)
Definition count_tokens (P : Process) (env : Env) (self : LocalGrid)
    (text model_name : string) : outcome Z * LocalGrid * list event :=
  let '(tokenizer, self', evs) := _get_tokenizer P env self model_name in
  (match tokenizer with
   | Some (TikToken e) =>
       bind (enc_encode e text []) (λ ids, Return (len ids))
   | Some (HuggingFace t) =>
       bind (hf_encode t text false) (λ ids, Return (len ids))
   | None =>
       Return (Z.of_nat (String.length text) `div` FALLBACK_TOKEN_RATIO)
   end, self', evs).

(** A sequence of [count_tokens] calls on one instance, each with the
    environment it runs in; the events of all calls, in order. *)
Fixpoint run_calls (P : Process) (self : LocalGrid)
    (calls : list (Env * string * string)) : LocalGrid * list event :=
  match calls with
  | [] => (self, [])
  | (env, text, model_name) :: rest =>
      let '(_, self', evs) := count_tokens P env self text model_name in
      let '(self'', evs') := run_calls P self' rest in
      (self'', evs ++ evs')
  end.

(** [from_pretrained] was called on [path]; with [loaded], it returned a
    tokenizer. *)
Definition is_load_call (path : string) (loaded : bool) (ev : event) : bool :=
  match ev with
  | EvFromPretrained p r => String.eqb p path && Bool.eqb r loaded
  | _ => false
  end.

(** Number of [from_pretrained] calls on [path] that returned a tokenizer. *)
Definition loads_of (path : string) (evs : list event) : nat :=
  length (List.filter (is_load_call path true) evs).

(** Number of [from_pretrained] calls on [path], whatever their end. *)
Definition load_calls_of (path : string) (evs : list event) : nat :=
  length (List.filter (λ ev, is_load_call path true ev || is_load_call path false ev) evs).

(** ** The package's modules and their import statements *)

(** The names bound at the top level of [core.py], in order: the imported
    modules and objects, and the one class it defines. *)
Definition core_names : list string :=
  ["os"; "AutoTokenizer"; "json"; "resources"; "tiktoken"; "LocalGrid"].

(** The names [__init__.py] asks of [.core]. *)
Definition init_imports : list string := ["usage"; "count"; "limit"; "preload"].

(** The two public operations are methods of the class [LocalGrid]. *)
Definition LocalGrid_methods : list string :=
  ["__init__"; "_get_tokenizer"; "count_tokens"; "_load_all_dbs";
   "get_model_token_limit"].

(** [from m import n1, ..., nk], where [namespace] is what module [m] binds:
    the names are bound from left to right, and the first that [m] lacks
    ends the statement with [ImportError]. *)
Fixpoint from_import (namespace names : list string) : outcome (list string) :=
  match names with
  | [] => Return []
  | n :: rest =>
      if bool_decide (n ∈ namespace)
      then bind (from_import namespace rest) (λ bound, Return (n :: bound))
      else Raise ImportError
  end.

(** Running the body of [core.py] (its third-party imports available). *)
Definition exec_core : outcome (list string) := Return core_names.

(** Running the body of [__init__.py]: the [from .core import (...)]
    statement, then the assignment of [__version__]. *)
Definition exec_init : outcome (list string) :=
  bind exec_core (λ core,
  bind (from_import core init_imports) (λ bound,
  Return (bound ++ ["__version__"]))).

(** [import localgrid] *)
Definition import_package : outcome (list string) := exec_init.

(** [from localgrid.core import n1, ..., nk]: the interpreter imports the
    parent package [localgrid] (running [__init__.py]) before it binds
    anything from the submodule. *)
Definition from_core_import (names : list string) : outcome (list string) :=
  bind import_package (λ _,
  bind exec_core (λ core, from_import core names)).

(** ** Vocabulary of the properties *)

(** The record that passes the test [if tag_data:] in one provider: the
    one stored for the pair, unless it is the empty dictionary. *)
Definition found_record (provider_data : ProviderRecord) (parent_name tag : string)
  : option VariantRecord :=
  match tag_lookup provider_data parent_name tag with
  | Some tag_data => if truthy tag_data then Some tag_data else None
  | None => None
  end.

(** What one pass of the loop body returns, when it returns. *)
Definition provider_yield (provider_data : ProviderRecord) (parent_name tag : string)
  : option Z :=
  match found_record provider_data parent_name tag with
  | Some tag_data =>
      match interpret_context (context_of tag_data) with
      | Return v => Some v
      | Raise _ => None
      end
  | None => None
  end.

(** The integer that the [try] block reads off a context value, before it
    is scaled. *)
Definition parsed_integer (context_str : value) : outcome Z :=
  if has_char "K" (upper (str context_str))
  then int (PyStr (remove_char "K" (upper (str context_str))))
  else int context_str.

(** The context-interpretation rule in the words of the specification, for
    the [context] field of a record ([None]: the field is absent). *)
Definition spec_has_K (s : string) : bool := has_char "K" s || has_char "k" s.

Definition spec_strip_K (s : string) : string :=
  remove_char "k" (remove_char "K" s).

Definition spec_context_rule (context : option value) : Z :=
  match context with
  | None => 8192
  | Some v =>
      if spec_has_K (str v) then
        match int (PyStr (spec_strip_K (str v))) with
        | Return n => n * 1024
        | Raise _ => 8192
        end
      else
        match int v with
        | Return n => if n <=? 1000 then n * 1024 else n
        | Raise _ => 8192
        end
  end.


(** A model record with the given variants. *)
Definition model_with (name : string) (vs : list (string * VariantRecord))
  : ModelRecord :=
  {| parent_model := name; variants := Some (list_to_map vs) |}.

(** A provider file holding one model with one tag. *)
Definition single_entry (parent tag : string) (tag_data : VariantRecord)
  : ProviderRecord :=
  {[ parent := model_with parent [(tag, tag_data)] ]}.

(** Upper-casing of the unread rest in a result of [scan_digits]. *)
Definition upper_rest (r : Z * nat * string) : Z * nat * string :=
  let '(v, n, s) := r in (v, n, upper s).

(** The test ['K' in s.upper()] fails on [s]. *)
Definition no_K (s : string) : Prop := has_char "K" (upper s) = false.

(** The family that [_get_tokenizer] settles on for an identifier: the
    value of [tokenizer_dir_name] when control passes the test
    [if not tokenizer_dir_name]. *)
Definition detected_family (P : Process) (model_name : string) : option string :=
  if has_char ":" model_name then
    match detect_family (set_order P) (split_head ":" model_name) with
    | None | Some EmptyString => None
    | Some tokenizer_dir_name => Some tokenizer_dir_name
    end
  else None.

(** Every call of a tokenizer's encoder returns a token sequence. *)
Definition total_encoding (tok : tokenizer) : Prop :=
  match tok with
  | TikToken e => ∀ text special, ∃ ids, enc_encode e text special = Return ids
  | HuggingFace t => ∀ text special, ∃ ids, hf_encode t text special = Return ids
  end.

(** No keyword of the set other than [k] itself occurs in [k]. *)
Definition unambiguous (k : string) : bool :=
  forallb (λ g, implb (str_in g k) (String.eqb g k)) TOKENIZER_MAP.

(** ** Stores used as concrete inputs *)

(** One provider whose only context value is the integer 0. *)
Definition zero_context_store : Store :=
  [("ollama", single_entry "tiny" "latest" {[ "context" := PyInt 0 ]})].

(** One provider whose only context value is the string "-5". *)
Definition negative_context_store : Store :=
  [("ollama", single_entry "tiny" "latest" {[ "context" := PyStr "-5" ]})].




(** ** Processes, environments and instances used as concrete inputs *)

(** A tokenizer with one token per character. *)
Definition char_tokenizer (path : string) : PreTrainedTokenizer :=
  {| name_or_path := path;
     hf_encode := λ text _, Return (map code (String.list_ascii_of_string text)) |}.

(** A default engine with one token per blank-separated word. *)
Definition word_encoding : Encoding :=
  {| enc_name := "cl100k_base";
     enc_encode := λ text _,
       Return (map (λ _, 0) (List.filter (Ascii.eqb " ")
                               (String.list_ascii_of_string (" " +:+ text)))) |}.

(** Every bundled directory exists and loads. *)
Definition all_bundled : Env :=
  {| path_exists := λ _, true;
     from_pretrained := λ path, Return (char_tokenizer path) |}.

(** No bundled directory exists. *)
Definition nothing_bundled : Env :=
  {| path_exists := λ _, false;
     from_pretrained := λ _, Raise (OtherException "no such directory") |}.

(** Every bundled directory exists and none loads. *)
Definition broken_bundles : Env :=
  {| path_exists := λ _, true;
     from_pretrained := λ _, Raise (OtherException "corrupt tokenizer files") |}.

Definition package_dir : string := "/site-packages/localgrid".

(** The set is visited in the order it is written. *)
Definition written_order : Process :=
  {| set_order := TOKENIZER_MAP; base_path := package_dir |}.

(** The set is visited with "llama" first, the rest as written. *)
Definition llama_first : Process :=
  {| set_order :=
       ["llama"; "aya"; "codellama"; "codestral"; "command-r"; "dbrx";
        "deepseek"; "falcon"; "gemma"; "granite"; "mistral"; "mixtral";
        "olmo"; "phi"; "qwen"; "solar"; "starcoder"; "yi"];
     base_path := package_dir |}.

(** A new instance with an empty store; the default engine is available in
    the first and failed to initialise in the second. *)
Definition fresh_grid : LocalGrid := __init__ [] (Return word_encoding).

Definition bare_grid : LocalGrid :=
  __init__ [] (Raise (OtherException "no encoding")).

(** ** Loading the store: [_load_all_dbs] *)

(** The exceptions of the loading code: the two that [_load_all_dbs]
    catches, the [KeyError] of a subscript, and any other (a JSON syntax
    error, a permission error, ...). *)
Inductive load_error : Type :=
| FileNotFoundError
| ModuleNotFoundError
| KeyError (key : string)
| OtherLoadError (msg : string).

(** [except (FileNotFoundError, ModuleNotFoundError)] *)
Definition is_missing_error (e : load_error) : bool :=
  match e with
  | FileNotFoundError | ModuleNotFoundError => true
  | _ => false
  end.

(** One element of a provider file as [json.load] returns it: a JSON object
    that may or may not have the keys [parent_model] and [variants]. *)
Record RawModel : Type := {
  raw_parent_model : option string;
  raw_variants : option (gmap string VariantRecord)
}.

(** The model object as the store keeps it, once [model['parent_model']]
    has been read. *)
Definition as_record (name : string) (model : RawModel) : ModelRecord :=
  {| parent_model := name; variants := raw_variants model |}.

(** The dictionary comprehension
    [{model['parent_model']: model for model in model_list}], from left to
    right; [acc] is the dictionary built so far. *)
Fixpoint index_models (model_list : list RawModel) (acc : ProviderRecord)
  : load_error + ProviderRecord :=
  match model_list with
  | [] => inr acc
  | model :: rest =>
      match raw_parent_model model with
      | Some name => index_models rest (<[name := as_record name model]> acc)
      | None => inl (KeyError "parent_model")
      end
  end.

(** [s.endswith(suffix)] *)
Fixpoint ends_with (suffix s : string) : bool :=
  String.eqb s suffix ||
  match s with
  | EmptyString => false
  | String _ s' => ends_with suffix s'
  end.

(** [s.replace(old, '')] for a non-empty [old]: occurrences are removed from
    left to right without overlap; [skip] counts the characters of an
    occurrence that are still to be dropped. *)
Fixpoint remove_sub_from (old s : string) (skip : nat) : string :=
  match s with
  | EmptyString => EmptyString
  | String c s' =>
      match skip with
      | S n => remove_sub_from old s' n
      | O =>
          if is_prefix old s
          then remove_sub_from old s' (String.length old - 1)
          else String c (remove_sub_from old s' 0)
      end
  end.

Definition remove_sub (old s : string) : string := remove_sub_from old s 0.

(** [d[k] = v] on a dictionary in insertion order: an existing key keeps its
    place, a new key goes to the end. *)
Fixpoint dict_set {V} (k : string) (v : V) (d : list (string * V))
  : list (string * V) :=
  match d with
  | [] => [(k, v)]
  | (k', v') :: d' =>
      if String.eqb k' k then (k, v) :: d' else (k', v') :: dict_set k v d'
  end.

(** The [for json_filename in ...] loop: [read_json] stands for opening the
    file and [json.load].  Returns the dictionary as it is when the loop
    ends, and the exception that ended it, if one did. *)
Fixpoint scan_files (read_json : string → load_error + list RawModel)
    (names : list string) (per_provider_db : Store)
  : Store * option load_error :=
  match names with
  | [] => (per_provider_db, None)
  | json_filename :: rest =>
      if ends_with "_data.json" json_filename then
        let provider_name := remove_sub "_data.json" json_filename in
        match read_json json_filename with
        | inl e => (per_provider_db, Some e)
        | inr model_list =>
            match index_models model_list ∅ with
            | inl e => (per_provider_db, Some e)
            | inr provider_data =>
                scan_files read_json rest
                  (dict_set provider_name provider_data per_provider_db)
            end
        end
      else scan_files read_json rest per_provider_db
  end.

(** [_load_all_dbs]: [contents] is how [resources.contents('localgrid.data')]
    ended. *)
Definition _load_all_dbs (contents : load_error + list string)
    (read_json : string → load_error + list RawModel) : load_error + Store :=
  let '(per_provider_db, raised) :=
    match contents with
    | inl e => ([], Some e)
    | inr names => scan_files read_json names []
    end in
  match raised with
  | None => inr per_provider_db
  | Some e => if is_missing_error e then inr per_provider_db else inl e
  end.

(** [LocalGrid()]: the constructor call, which fails when [_load_all_dbs]
    raises. *)
Definition new_LocalGrid (contents : load_error + list string)
    (read_json : string → load_error + list RawModel)
    (get_encoding : outcome Encoding) : load_error + LocalGrid :=
  match _load_all_dbs contents read_json with
  | inr loaded => inr (__init__ loaded get_encoding)
  | inl e => inl e
  end.

(** ** A data directory used as a concrete input *)

Definition raw_model (name : string) (vs : list (string * VariantRecord))
  : RawModel :=
  {| raw_parent_model := Some name; raw_variants := Some (list_to_map vs) |}.

(** A model object without the key [parent_model]. *)
Definition nameless_model : RawModel :=
  {| raw_parent_model := None; raw_variants := Some ∅ |}.

(** The file of provider ollama lists llama3.1 twice. *)
Definition ollama_models : list RawModel :=
  [raw_model "llama3.1" [("latest", {[ "context" := PyStr "8K" ]})];
   raw_model "gemma" [("2b", {[ "context" := PyStr "N/A" ]})];
   raw_model "llama3.1" [("latest", {[ "context" := PyStr "128K" ]})]].

(** What opening and parsing each file of the directory gives. *)
Definition sample_read_json (json_filename : string)
  : load_error + list RawModel :=
  if String.eqb json_filename "ollama_data.json" then inr ollama_models
  else if String.eqb json_filename "lmstudio_data.json"
    then inr [raw_model "gemma" [("2b", {[ "context" := PyStr "32K" ]})]]
  else if String.eqb json_filename "broken_data.json"
    then inl (OtherLoadError "JSONDecodeError")
  else if String.eqb json_filename "nameless_data.json"
    then inr [nameless_model]
  else inl FileNotFoundError.

(** The store that the two readable provider files give. *)
Definition sample_store : Store :=
  [("ollama",
    {[ "gemma" := model_with "gemma" [("2b", {[ "context" := PyStr "N/A" ]})];
       "llama3.1" :=
         model_with "llama3.1" [("latest", {[ "context" := PyStr "128K" ]})] ]});
   ("lmstudio",
    {[ "gemma" := model_with "gemma" [("2b", {[ "context" := PyStr "32K" ]})] ]})].

(** ** Vocabulary of the further properties *)

(** An iteration order of the keyword set that starts with [k]. *)
Definition order_with_first (k : string) : list string :=
  k :: List.filter (λ g, negb (String.eqb g k)) TOKENIZER_MAP.

(** Every call of the loader in [evs] follows at once on a check of the
    same path that found it; [confirmed] is the path just found, if any. *)
Fixpoint loads_guarded (confirmed : option string) (evs : list event) : bool :=
  match evs with
  | [] => true
  | EvExists path found :: rest =>
      loads_guarded (if found then Some path else None) rest
  | EvFromPretrained path _ :: rest =>
      match confirmed with
      | Some checked => String.eqb path checked
      | None => false
      end && loads_guarded None rest
  | EvWarning _ _ :: rest => loads_guarded None rest
  end.

(** The event concerns the bundled directory of a family of the set. *)
Definition event_of_family (P : Process) (ev : event) : Prop :=
  match ev with
  | EvExists path _ | EvFromPretrained path _ =>
      ∃ k, k ∈ set_order P ∧ path = tokenizer_path (base_path P) k
  | EvWarning k _ => k ∈ set_order P
  end.

(** What [count_tokens] returns when [_get_tokenizer] hands out the default
    tokenizer. *)
Definition default_count (self : LocalGrid) (text : string) : outcome Z :=
  match _default_tokenizer self with
  | Some e => bind (enc_encode e text []) (λ ids, Return (len ids))
  | None => Return (Z.of_nat (String.length text) `div` FALLBACK_TOKEN_RATIO)
  end.

(** ** The store as [json.load] delivers it

    The data model above is the store of a data directory that follows the
    schema.  What follows is the query over whatever [json.load] can
    deliver: any JSON value in the place of [variants], of a tag and of
    [context]. *)

(** A JSON value as a Python object.  A number with a fraction or an
    exponent is a binary64 float, [spec_float]; an object is its list of
    members. *)
#[warnings="-register-all"] Inductive json : Type :=
| JNull
| JBool (b : bool)
| JInt (z : Z)
| JFloat (f : spec_float)
| JStr (s : string)
| JList (items : list json)
| JDict (members : list (string * json)).

(** A JSON object, and the store: provider name to parent name to model
    object.  A model is an object and is filed under its [parent_model],
    since [_load_all_dbs] has subscripted it with that key; a model filed
    under a key that is not a string is never found by the query and is left
    out. *)
Abbreviation JObject := (list (string * json)).
Abbreviation RawStore := (list (string * list (string * JObject))).

(** The two exception classes that the query can let through. *)
Definition AttributeError : exn := OtherException "AttributeError".
Definition OverflowError : exn := OtherException "OverflowError".

(** [d.get(k)] on a dictionary given by its members. *)
Fixpoint assoc {A} (k : string) (d : list (string * A)) : option A :=
  match d with
  | [] => None
  | (k', v) :: d' => if String.eqb k' k then Some v else assoc k d'
  end.

(** [v.get(k)] on any object: only a dictionary has the method. *)
Definition json_get (v : json) (k : string) : outcome (option json) :=
  match v with
  | JDict d => Return (assoc k d)
  | _ => Raise AttributeError
  end.

(** Truth value of an object, as [if v:] tests it. *)
Definition json_truthy (v : json) : bool :=
  match v with
  | JNull => false
  | JBool b => b
  | JInt z => negb (z =? 0)
  | JFloat (S754_zero _) => false
  | JFloat _ => true
  | JStr s => negb (String.eqb s EmptyString)
  | JList items => match items with [] => false | _ => true end
  | JDict d => match d with [] => false | _ => true end
  end.

(** [int(x)] on a float: truncation towards zero; [OverflowError] on an
    infinity and [ValueError] on a NaN. *)
Definition float_int (f : spec_float) : outcome Z :=
  match f with
  | S754_zero _ => Return 0
  | S754_infinity _ => Raise OverflowError
  | S754_nan => Raise ValueError
  | S754_finite s m e =>
      Return (if s then - Z.shiftl (Z.pos m) e else Z.shiftl (Z.pos m) e)
  end.

(** [int(v)] *)
Definition json_int (v : json) : outcome Z :=
  match v with
  | JNull => Raise TypeError
  | JBool b => Return (if b then 1 else 0)
  | JInt z => Return z
  | JFloat f => float_int f
  | JStr s => int_of_str s
  | JList _ | JDict _ => Raise TypeError
  end.

(** [str(v)].  The text of a finite float, of a list and of a dictionary
    is left to [render]: the properties below hold whatever it is. *)
Definition json_str (render : json → string) (v : json) : string :=
  match v with
  | JNull => "None"
  | JBool true => "True"
  | JBool false => "False"
  | JInt z => pretty z
  | JStr s => s
  | JFloat (S754_infinity false) => "inf"
  | JFloat (S754_infinity true) => "-inf"
  | JFloat S754_nan => "nan"
  | _ => render v
  end.

(** The body of the [try] block, for one [context_str]. *)
Definition raw_interpret_context (render : json → string) (context_str : json)
  : outcome Z :=
  if has_char "K" (upper (json_str render context_str)) then
    bind (json_int (JStr (remove_char "K" (upper (json_str render context_str)))))
         (λ n, Return (n * 1024))
  else
    bind (json_int context_str)
         (λ numeric_value,
            if numeric_value <=? 1000
            then Return (numeric_value * 1024)
            else Return numeric_value).

(** [provider_data.get(parent_name, {}).get('variants', {}).get(tag)] *)
Definition raw_tag_data (provider_data : list (string * JObject))
    (parent_name tag : string) : outcome (option json) :=
  let model := default [] (assoc parent_name provider_data) in
  let variants := default (JDict []) (assoc "variants" model) in
  json_get variants tag.

(** The loop over the providers and the final [return].  The two lookups
    stand outside the [try] block, so what they raise is not caught. *)
Fixpoint raw_scan_providers (render : json → string)
    (providers : list (list (string * JObject))) (parent_name tag : string)
  : outcome Z :=
  match providers with
  | [] => Return DEFAULT_TOKEN_LIMIT
  | provider_data :: rest =>
      match raw_tag_data provider_data parent_name tag with
      | Raise e => Raise e
      | Return None => raw_scan_providers render rest parent_name tag
      | Return (Some tag_data) =>
          if json_truthy tag_data then
            match json_get tag_data "context" with
            | Raise e => Raise e
            | Return context =>
                try_except_value_type
                  (raw_interpret_context render (default (JStr "8K") context))
                  (raw_scan_providers render rest parent_name tag)
            end
          else raw_scan_providers render rest parent_name tag
      end
  end.

(** [get_model_token_limit] over the store as loaded. *)
Definition raw_get_model_token_limit (render : json → string) (_db : RawStore)
    (model_name : string) : outcome Z :=
  if has_char ":" model_name then
    let parent_name := split_head ":" model_name in
    let tag := split_tail ":" model_name in
    raw_scan_providers render (values _db) parent_name tag
  else Return DEFAULT_TOKEN_LIMIT.

(** *** Stores on which the query raises nothing *)

(** What a tag may be bound to: a dictionary whose [context] is not an
    infinite float, or an object that [if tag_data:] passes over. *)
Definition record_ok (v : json) : bool :=
  match v with
  | JDict td =>
      match assoc "context" td with
      | Some (JFloat (S754_infinity _)) => false
      | _ => true
      end
  | _ => negb (json_truthy v)
  end.

(** The [variants] of a model: absent, or a dictionary of such bindings. *)
Definition model_ok (model : JObject) : bool :=
  match assoc "variants" model with
  | None => true
  | Some (JDict vs) => forallb (λ kv, record_ok (snd kv)) vs
  | Some _ => false
  end.

Definition well_formed (db : RawStore) : bool :=
  forallb (λ p, forallb (λ m, model_ok (snd m)) (snd p)) db.

(** The integer that the [try] block reads off a context value, before it
    is scaled. *)
Definition raw_parsed_integer (render : json → string) (context_str : json)
  : outcome Z :=
  if has_char "K" (upper (json_str render context_str))
  then json_int (JStr (remove_char "K" (upper (json_str render context_str))))
  else json_int context_str.

(** *** The schema-conforming store as a loaded store *)

Definition embed_value (v : value) : json :=
  match v with
  | PyNone => JNull
  | PyBool b => JBool b
  | PyInt z => JInt z
  | PyStr s => JStr s
  end.

Definition embed_record (td : VariantRecord) : json :=
  JDict (map_to_list (embed_value <$> td)).

Definition embed_model (m : ModelRecord) : JObject :=
  ("parent_model", JStr (parent_model m)) ::
  match variants m with
  | Some vs => [("variants", JDict (map_to_list (embed_record <$> vs)))]
  | None => []
  end.

Definition embed_provider (provider_data : ProviderRecord)
  : list (string * JObject) :=
  map_to_list (embed_model <$> provider_data).

Definition embed (db : Store) : RawStore :=
  map (λ p, (fst p, embed_provider (snd p))) db.

(** *** Loaded stores used as concrete inputs *)

(** A rendering that gives every finite float, list and dictionary the empty
    text, for stores that hold none of these as a context; and one for
    stores whose only such context is the float 8192.5. *)
Definition no_text (v : json) : string := EmptyString.

Definition text_of_8192_5 (v : json) : string := "8192.5".

Definition raw_single (parent tag : string) (variants : json) : RawStore :=
  [("ollama", [(parent, [("parent_model", JStr parent); ("variants", variants)])])].

(** The context is the integer 0. *)
Definition raw_zero_store : RawStore :=
  raw_single "tiny" "latest" (JDict [("latest", JDict [("context", JInt 0)])]).

(** ["variants": null] *)
Definition raw_null_variants_store : RawStore :=
  raw_single "tiny" "latest" JNull.

(** The tag is bound to a string instead of an object. *)
Definition raw_string_tag_store : RawStore :=
  raw_single "tiny" "latest" (JDict [("latest", JStr "128K")]).

(** The context is [1e999], which [json.load] reads as infinity. *)
Definition raw_infinite_context_store : RawStore :=
  raw_single "tiny" "latest"
    (JDict [("latest", JDict [("context", JFloat (S754_infinity false))])]).

(** The context is the float 8192.5, that is 16385 * 2^-1. *)
Definition raw_float_context_store : RawStore :=
  raw_single "tiny" "latest"
    (JDict [("latest", JDict [("context", JFloat (S754_finite false 16385 (-1)))]);
            ("old", JNull)]).

(** * Properties *)

(** ** Sanity checks of the built-ins *)

Example int_of_str_ex1 : int_of_str "128" = Return 128.
Proof. reflexivity. Qed.
Example int_of_str_ex2 : int_of_str "  -1_000 " = Return (-1000).
Proof. reflexivity. Qed.
Example int_of_str_ex3 : int_of_str "N/A" = Raise ValueError.
Proof. reflexivity. Qed.
Example int_of_str_ex4 : int_of_str "1__0" = Raise ValueError.
Proof. reflexivity. Qed.
Example int_of_str_ex5 : int_of_str "- 5" = Raise ValueError.
Proof. reflexivity. Qed.
Example str_ex1 : str (PyInt (-42)) = "-42".
Proof. reflexivity. Qed.
Example upper_ex1 : upper "128k" = "128K".
Proof. reflexivity. Qed.

(** ** The repository's test table for [get_model_token_limit] *)

Example test_get_model_token_limit :
  map (get_model_token_limit MOCK_DB_DATA)
      ["llama3.1:latest"; "llama3.1:8b"; "gemma:latest"; "gemma:2b";
       "phi-3:mini"; "unknown-model:latest"; "model-no-colon"]
  = map Return [131072; 131072; 8192; 8192; 8192; 8192; 8192].
Proof. vm_compute. reflexivity. Qed.

(** ** Characters *)

Ltac by_ascii c := destruct c as [[] [] [] [] [] [] [] []]; vm_compute; try done.

Lemma is_space_upper c : is_space (upper_char c) = is_space c.
Proof. by_ascii c. Qed.

Lemma is_digit_upper c : is_digit (upper_char c) = is_digit c.
Proof. by_ascii c. Qed.

Lemma upper_char_digit c : is_digit c = true → upper_char c = c.
Proof. by_ascii c. Qed.

Lemma underscore_upper c : Ascii.eqb (upper_char c) "_" = Ascii.eqb c "_".
Proof. by_ascii c. Qed.


Lemma upper_char_not_k c : Ascii.eqb "k" (upper_char c) = false.
Proof. by_ascii c. Qed.

Lemma sign_upper c :
  Ascii.eqb (upper_char c) "+" = Ascii.eqb c "+" ∧
  Ascii.eqb (upper_char c) "-" = Ascii.eqb c "-".
Proof. by_ascii c. Qed.

(** ** Strings: upper-casing does not change what [int] reads *)



Lemma all_space_upper s : all_space (upper s) = all_space s.
Proof.
  induction s as [|c s IH]; [done|].
  cbn [upper all_space]. by rewrite is_space_upper, IH.
Qed.

Lemma lstrip_upper s : lstrip (upper s) = upper (lstrip s).
Proof.
  induction s as [|c s IH]; [done|].
  cbn [upper lstrip]. rewrite is_space_upper.
  by destruct (is_space c).
Qed.

Lemma scan_digits_upper s :
  ∀ acc cnt, scan_digits (upper s) acc cnt = upper_rest <$> scan_digits s acc cnt.
Proof.
  remember (String.length s) as n eqn:Hn. revert s Hn.
  induction (lt_wf n) as [n _ IH]. intros s Hn acc cnt.
  destruct s as [|c s]; [done|].
  cbn [upper scan_digits]. rewrite is_digit_upper, underscore_upper.
  destruct (is_digit c) eqn:Hc.
  - rewrite (upper_char_digit c Hc).
    eapply IH; [|reflexivity]. subst n. simpl. lia.
  - destruct (Ascii.eqb c "_"); [|done].
    destruct s as [|d s]; [done|].
    cbn [upper]. rewrite is_digit_upper.
    destruct (is_digit d) eqn:Hd; [|done].
    rewrite (upper_char_digit d Hd).
    eapply IH; [|reflexivity]. subst n. simpl. lia.
Qed.

Lemma unsigned_of_str_upper s : unsigned_of_str (upper s) = unsigned_of_str s.
Proof.
  destruct s as [|c s]; [done|].
  unfold unsigned_of_str. change (upper (String c s)) with (String (upper_char c) (upper s)).
  cbv beta iota. rewrite is_digit_upper. destruct (is_digit c) eqn:Hc; [|done].
  change (String (upper_char c) (upper s)) with (upper (String c s)).
  rewrite scan_digits_upper.
  destruct (scan_digits (String c s) 0 0%nat) as [[[v n] r]|]; [|done].
  cbn [fmap option_fmap option_map upper_rest]. by rewrite all_space_upper.
Qed.

Lemma int_of_str_upper s : int_of_str (upper s) = int_of_str s.
Proof.
  unfold int_of_str. rewrite lstrip_upper.
  destruct (lstrip s) as [|c r]; [done|].
  cbn [upper]. destruct (sign_upper c) as [-> ->].
  destruct (Ascii.eqb c "+"); [apply unsigned_of_str_upper|].
  destruct (Ascii.eqb c "-"); [by rewrite unsigned_of_str_upper|].
  apply (unsigned_of_str_upper (String c r)).
Qed.

(** ** Exceptions of the built-ins: [int] raises nothing but [ValueError]
    and [TypeError] *)

Lemma unsigned_of_str_raise s e : unsigned_of_str s = Raise e → e = ValueError.
Proof. unfold unsigned_of_str. intros H. repeat case_match; congruence. Qed.

Lemma int_of_str_raise s e : int_of_str s = Raise e → e = ValueError.
Proof.
  unfold int_of_str. intros H.
  destruct (lstrip s) as [|c r]; [by eapply unsigned_of_str_raise|].
  destruct (Ascii.eqb c "+"); [by eapply unsigned_of_str_raise|].
  destruct (Ascii.eqb c "-"); [|by eapply unsigned_of_str_raise].
  destruct (unsigned_of_str r) eqn:Hr; simpl in H; [done|].
  injection H as <-. by eapply unsigned_of_str_raise.
Qed.

Lemma int_raise v e : int v = Raise e → is_value_or_type_error e = true.
Proof.
  destruct v; simpl; intros H; try congruence.
  - by injection H as <-.
  - by rewrite (int_of_str_raise _ _ H).
Qed.

Lemma parsed_integer_raise c e :
  parsed_integer c = Raise e → is_value_or_type_error e = true.
Proof. unfold parsed_integer. case_match; apply int_raise. Qed.

(** The [try] block scales the integer it has read: by 1024 under a "K" or
    up to 1000, not at all above. *)
Lemma interpret_context_parsed c :
  interpret_context c =
  bind (parsed_integer c) (λ n,
    if has_char "K" (upper (str c)) || (n <=? 1000)
    then Return (n * 1024) else Return n).
Proof.
  unfold interpret_context, parsed_integer.
  destruct (has_char "K" (upper (str c))); [done|].
  destruct (int c); [|done]. simpl. by case_match.
Qed.

Lemma interpret_context_raise c e :
  interpret_context c = Raise e → is_value_or_type_error e = true.
Proof.
  rewrite interpret_context_parsed. intros H. apply (parsed_integer_raise c).
  destruct (parsed_integer c); simpl in H; [|done]. by case_match.
Qed.

(** ** Decimal rendering of integers has no letter *)

Lemma pretty_N_go_no_K x s : no_K s → no_K (pretty_N_go x s).
Proof.
  revert s. induction (N.lt_wf_0 x) as [x _ IH]. intros s Hs.
  destruct (decide (x = 0%N)) as [->|Hx]; [by rewrite pretty_N_go_0|].
  rewrite pretty_N_go_step by lia.
  apply IH; [apply N.div_lt; lia|].
  unfold no_K. cbn [upper has_char]. rewrite Hs.
  unfold pretty_N_char. by repeat case_match.
Qed.

Lemma pretty_positive_no_K (p : positive) : no_K (pretty p).
Proof. by apply pretty_N_go_no_K. Qed.

Lemma pretty_Z_no_K (z : Z) : no_K (pretty z).
Proof.
  destruct z as [|p|p]; [done|apply pretty_positive_no_K|].
  change (no_K (String "-" (pretty p))).
  unfold no_K. cbn [upper has_char]. apply pretty_positive_no_K.
Qed.

Lemma interpret_context_int z :
  interpret_context (PyInt z) =
  if z <=? 1000 then Return (z * 1024) else Return z.
Proof.
  unfold interpret_context. cbn [str].
  by rewrite (pretty_Z_no_K z).
Qed.

(** ** The [try] block against the rule of the specification *)



(** ** The provider loop *)

Lemma scan_providers_cons p rest parent tag :
  scan_providers (p :: rest) parent tag =
  match provider_yield p parent tag with
  | Some v => Return v
  | None => scan_providers rest parent tag
  end.
Proof.
  cbn [scan_providers]. unfold provider_yield, found_record.
  destruct (tag_lookup p parent tag) as [td|]; [|done].
  destruct (truthy td); [|done].
  unfold try_except_value_type.
  destruct (interpret_context (context_of td)) as [v|e] eqn:He; [done|].
  by rewrite (interpret_context_raise _ _ He).
Qed.

Lemma scan_providers_skip pre rest parent tag :
  Forall (λ q, provider_yield q parent tag = None) pre →
  scan_providers (pre ++ rest) parent tag = scan_providers rest parent tag.
Proof.
  induction 1 as [|q pre Hq _ IH]; [done|].
  rewrite <- app_comm_cons, scan_providers_cons. by rewrite Hq.
Qed.



(** The loop always returns: the default, or what some provider yields. *)
Lemma scan_providers_result ps parent tag :
  ∃ z, scan_providers ps parent tag = Return z ∧
       (z = DEFAULT_TOKEN_LIMIT ∨ ∃ p, p ∈ ps ∧ provider_yield p parent tag = Some z).
Proof.
  induction ps as [|p ps (z & Hz & IH)].
  - exists DEFAULT_TOKEN_LIMIT. by split; [|left].
  - rewrite scan_providers_cons.
    destruct (provider_yield p parent tag) as [v|] eqn:Hp.
    + exists v. split; [done|]. right. exists p. split; [left|done].
    + exists z. split; [done|].
      destruct IH as [->|(q & Hq & Hy)]; [by left|].
      right. exists q. split; [by right|done].
Qed.

(** What a provider yields is positive, unless the integer read off its
    context value is not: then it is that integer times 1024. *)
Lemma provider_yield_sign p parent tag z :
  provider_yield p parent tag = Some z →
  ∃ td n, found_record p parent tag = Some td ∧
          parsed_integer (context_of td) = Return n ∧
          (0 < z ∨ (n ≤ 0 ∧ z = n * 1024)).
Proof.
  unfold provider_yield.
  destruct (found_record p parent tag) as [td|]; [|done].
  rewrite interpret_context_parsed.
  destruct (parsed_integer (context_of td)) as [n|] eqn:Hn; [|done].
  cbn [bind]. intros Hz. exists td, n. split; [done|]. split; [done|].
  destruct (has_char "K" (upper (str (context_of td))) || (n <=? 1000)) eqn:Hk;
    injection Hz as <-.
  - destruct (decide (0 < n)); [left|right]; lia.
  - apply orb_false_iff in Hk as [_ Hk]. left. lia.
Qed.

Lemma provider_yield_None p parent tag :
  provider_yield p parent tag = None ↔
  ∀ td, found_record p parent tag = Some td →
        ∃ e, interpret_context (context_of td) = Raise e.
Proof.
  unfold provider_yield. split.
  - intros H td Htd. rewrite Htd in H.
    destruct (interpret_context (context_of td)) as [v|e]; [done|by exists e].
  - intros H. destruct (found_record p parent tag) as [td|]; [|done].
    by destruct (H td eq_refl) as [e ->].
Qed.

(** The values of the specification's examples, through the [try] block
    and through the rule as the specification words it. *)
Example interpret_context_examples :
  map interpret_context [PyStr "128K"; PyStr "128k"; PyInt 128; PyInt 8192;
                         PyStr "8192"; PyStr "N/A"; PyNone]
  = [Return 131072; Return 131072; Return 131072; Return 8192; Return 8192;
     Raise ValueError; Raise TypeError].
Proof. vm_compute. reflexivity. Qed.

Example spec_context_rule_examples :
  map spec_context_rule [Some (PyStr "128K"); Some (PyInt 128);
                         Some (PyInt 8192); Some (PyStr "N/A"); None]
  = [131072; 131072; 8192; 8192; 8192].
Proof. vm_compute. reflexivity. Qed.

(** ** Claims about [get_model_token_limit] *)

(** In the data model: a stored context value of 0 is returned as
    0 * 1024 = 0, and the stored string "-5" as -5 * 1024; neither result is
    a positive integer. *)
Lemma limit_not_positive_counterexample :
  get_model_token_limit zero_context_store "tiny:latest" = Return 0 ∧
  get_model_token_limit negative_context_store "tiny:latest" = Return (-5120) ∧
  ¬ (0 < 0) ∧ ¬ (0 < -5120).
Proof. repeat split; try (vm_compute; reflexivity); lia. Qed.

(** In the data model, where the store follows the schema: for every store
    and every input string, [get_model_token_limit] raises nothing and
    returns an integer; the integer is positive unless it comes from a
    stored context value whose integer [n], read under the interpretation
    rule, is zero or negative, in which case it is [n * 1024]. *)
Theorem limit_returns_integer (db : Store) (model_name : string) :
  ∃ z, get_model_token_limit db model_name = Return z ∧
       (0 < z ∨
        ∃ p td n,
          p ∈ values db ∧
          found_record p (split_head ":" model_name) (split_tail ":" model_name)
            = Some td ∧
          parsed_integer (context_of td) = Return n ∧
          n ≤ 0 ∧ z = n * 1024).
Proof.
  unfold get_model_token_limit.
  destruct (has_char ":" model_name).
  - destruct (scan_providers_result (values db) (split_head ":" model_name)
                (split_tail ":" model_name)) as (z & Hz & [->|(p & Hp & Hy)]).
    + exists DEFAULT_TOKEN_LIMIT. split; [done|]. left. done.
    + exists z. split; [done|].
      destruct (provider_yield_sign _ _ _ _ Hy) as (td & n & Htd & Hn & [?|[? ?]]);
        [by left|].
      right. by exists p, td, n.
  - exists DEFAULT_TOKEN_LIMIT. split; [done|]. left. done.
Qed.







(** Without a separator the answer is the default, whatever the store
    holds. *)
Lemma limit_without_separator (db : Store) (model_name : string) :
  has_char ":" model_name = false →
  get_model_token_limit db model_name = Return 8192.
Proof. intros H. unfold get_model_token_limit. by rewrite H. Qed.

(** ** The tokenizer resolver *)

Lemma append_cons c s t : String c s +:+ t = String c (s +:+ t).
Proof. reflexivity. Qed.

Lemma has_sep_append k tag : has_char ":" (k +:+ ":" +:+ tag) = true.
Proof.
  induction k as [|c k IH]; [done|].
  rewrite append_cons. cbn [has_char]. rewrite IH. apply orb_true_r.
Qed.

Lemma split_head_append k tag :
  has_char ":" k = false → split_head ":" (k +:+ ":" +:+ tag) = k.
Proof.
  induction k as [|c k IH]; [done|].
  cbn [has_char]. intros [Hc Hk]%orb_false_iff.
  rewrite append_cons. cbn [split_head]. rewrite Hc. by rewrite IH.
Qed.

Lemma split_tail_append k tag :
  has_char ":" k = false → split_tail ":" (k +:+ ":" +:+ tag) = tag.
Proof.
  induction k as [|c k IH]; [done|].
  cbn [has_char]. intros [Hc Hk]%orb_false_iff.
  rewrite append_cons. cbn [split_tail]. rewrite Hc. by rewrite IH.
Qed.

Lemma is_prefix_refl s : is_prefix s s = true.
Proof.
  induction s as [|c s IH]; [done|].
  cbn [is_prefix]. by rewrite Ascii.eqb_refl, IH.
Qed.

Lemma str_in_refl s : str_in s s = true.
Proof. destruct s; cbn [str_in]; by rewrite is_prefix_refl. Qed.

Lemma str_in_append_l p s : str_in s (p +:+ s) = true.
Proof.
  induction p as [|c p IH]; [apply str_in_refl|].
  rewrite append_cons. cbn [str_in]. rewrite IH. apply orb_true_r.
Qed.

Lemma append_inv_head p a b : p +:+ a = p +:+ b → a = b.
Proof.
  induction p as [|c p IH]; [done|].
  rewrite !append_cons. intros [= H]. by apply IH.
Qed.

Lemma str_in_append_r p s t : str_in s t = true → str_in s (p +:+ t) = true.
Proof.
  intros H. induction p as [|c p IH]; [done|].
  rewrite append_cons. cbn [str_in]. rewrite IH. apply orb_true_r.
Qed.

(** The path asked of the file system ends in the family's directory name,
    so it contains that name. *)
Lemma tokenizer_path_contains base f : str_in f (tokenizer_path base f) = true.
Proof.
  unfold tokenizer_path, path_join. cbn [foldl].
  generalize (join2 base "tokenizers"). intros d. unfold join2.
  destruct (is_prefix "/" f); [apply str_in_refl|].
  destruct (String.eqb d EmptyString || ends_with_sep d); [apply str_in_append_l|].
  apply str_in_append_r, str_in_append_l.
Qed.

(** Directory names that do not start with the separator have distinct
    paths. *)
Lemma tokenizer_path_inj base f g :
  is_prefix "/" f = false → is_prefix "/" g = false →
  tokenizer_path base f = tokenizer_path base g → f = g.
Proof.
  unfold tokenizer_path, path_join. cbn [foldl].
  generalize (join2 base "tokenizers"). intros d. unfold join2.
  intros -> ->.
  destruct (String.eqb d EmptyString || ends_with_sep d); intros H.
  - by apply append_inv_head in H.
  - apply append_inv_head in H. by apply (append_inv_head "/") in H.
Qed.

(** *** The ways a call of [_get_tokenizer] can go *)

Lemma detected_family_nonempty P model_name f :
  detected_family P model_name = Some f → f ≠ EmptyString.
Proof.
  unfold detected_family. repeat case_match; congruence.
Qed.

Lemma detected_family_in_order P model_name f :
  detected_family P model_name = Some f → f ∈ set_order P.
Proof.
  unfold detected_family, detect_family.
  destruct (has_char ":" model_name); [|done].
  destruct (find _ _) as [g|] eqn:Hfind; [|done].
  apply find_some in Hfind as [Hin _].
  destruct g; [done|]. intros [= <-]. by apply list_elem_of_In.
Qed.

Lemma get_tokenizer_undetected P env self model_name :
  detected_family P model_name = None →
  _get_tokenizer P env self model_name = (default_tokenizer self, self, []).
Proof.
  unfold detected_family, _get_tokenizer.
  destruct (has_char ":" model_name); [|done].
  by destruct (detect_family _ _) as [[|c f]|].
Qed.

Lemma get_tokenizer_detected P env self model_name f :
  detected_family P model_name = Some f →
  _get_tokenizer P env self model_name =
  match _tokenizer_cache self !! f with
  | Some tokenizer => (Some (HuggingFace tokenizer), self, [])
  | None =>
      let path := tokenizer_path (base_path P) f in
      if path_exists env path then
        match from_pretrained env path with
        | Return tokenizer =>
            (Some (HuggingFace tokenizer), cache_store self f tokenizer,
             [EvExists path true; EvFromPretrained path true])
        | Raise err =>
            (default_tokenizer self, self,
             [EvExists path true; EvFromPretrained path false; EvWarning f err])
        end
      else (default_tokenizer self, self, [EvExists path false])
  end.
Proof.
  unfold detected_family, _get_tokenizer.
  destruct (has_char ":" model_name); [|done].
  destruct (detect_family _ _) as [[|c g]|]; [done| |done].
  by intros [= <-].
Qed.

(** ** Claims about [count_tokens] and [_get_tokenizer] *)

(** C5: for every identifier without a separator, [get_model_token_limit]
    returns the default 8192 whatever the store holds, and [_get_tokenizer]
    hands out the default tokenizer whatever the iteration order, the cache
    and the bundled assets are, touching neither the file system nor the
    loader; so [count_tokens] counts with the default engine or, when there
    is none, by the character heuristic. *)
Theorem no_separator_defaults (model_name : string) :
  has_char ":" model_name = false →
  (∀ db, get_model_token_limit db model_name = Return 8192) ∧
  (∀ P env self,
     _get_tokenizer P env self model_name = (default_tokenizer self, self, [])) ∧
  (∀ P env self text,
     count_tokens P env self text model_name =
     (match _default_tokenizer self with
      | Some e => bind (enc_encode e text []) (λ ids, Return (len ids))
      | None => Return (Z.of_nat (String.length text) `div` 4)
      end, self, [])).
Proof.
  intros Hsep. split; [|split].
  - intros db. by apply limit_without_separator.
  - intros P env self. unfold _get_tokenizer. by rewrite Hsep.
  - intros P env self text. unfold count_tokens, _get_tokenizer.
    rewrite Hsep. unfold default_tokenizer.
    by destruct (_default_tokenizer self).
Qed.

Lemma no_separator_defaults_witness :
  get_model_token_limit MOCK_DB_DATA "model-no-colon" = Return 8192 ∧
  count_tokens llama_first all_bundled bare_grid "hello world" "model-no-colon"
    = (Return 2, bare_grid, []).
Proof.
  destruct (no_separator_defaults "model-no-colon") as (Hlimit & _ & Hcount);
    [reflexivity|].
  split; [apply Hlimit|]. apply Hcount.
Defined.

(** C4: whatever tokenizer [_get_tokenizer] resolves decides the count.  A
    family tokenizer: the length of its encoding of the text, called with
    [add_special_tokens=False].  The default engine: the length of its
    encoding, called with [disallowed_special=()].  No tokenizer at all:
    [len(text) // 4], which is 2 for a text of 11 characters. *)
Theorem count_tokens_tiers (P : Process) (env : Env) (self : LocalGrid)
    (text model_name : string) (tok : option tokenizer) (self' : LocalGrid)
    (evs : list event) :
  _get_tokenizer P env self model_name = (tok, self', evs) →
  (∀ t ids, tok = Some (HuggingFace t) → hf_encode t text false = Return ids →
     count_tokens P env self text model_name = (Return (len ids), self', evs)) ∧
  (∀ e ids, tok = Some (TikToken e) → enc_encode e text [] = Return ids →
     count_tokens P env self text model_name = (Return (len ids), self', evs)) ∧
  (tok = None →
     count_tokens P env self text model_name =
     (Return (Z.of_nat (String.length text) `div` 4), self', evs)) ∧
  (String.length text = 11%nat → Z.of_nat (String.length text) `div` 4 = 2).
Proof.
  intros Hres. unfold count_tokens. rewrite Hres. repeat split.
  - intros t ids -> Henc. by rewrite Henc.
  - intros e ids -> Henc. by rewrite Henc.
  - by intros ->.
  - by intros ->.
Qed.

Lemma count_tokens_tiers_witness :
  count_tokens written_order nothing_bundled bare_grid "hello world"
    "any-model:latest" = (Return 2, bare_grid, []) ∧
  count_tokens written_order all_bundled fresh_grid "hello world"
    "llama3.1:latest"
  = (Return 11,
     cache_store fresh_grid "llama"
       (char_tokenizer "/site-packages/localgrid/tokenizers/llama"),
     [EvExists "/site-packages/localgrid/tokenizers/llama" true;
      EvFromPretrained "/site-packages/localgrid/tokenizers/llama" true]) ∧
  count_tokens written_order all_bundled fresh_grid "hello world"
    "gpt-4:latest" = (Return 2, fresh_grid, []).
Proof.
  split; [|split].
  - refine (proj1 (proj2 (proj2 (count_tokens_tiers written_order
      nothing_bundled bare_grid "hello world" "any-model:latest"
      None bare_grid [] _))) _); reflexivity.
  - refine (proj1 (count_tokens_tiers written_order all_bundled fresh_grid
      "hello world" "llama3.1:latest"
      (Some (HuggingFace
               (char_tokenizer "/site-packages/localgrid/tokenizers/llama")))
      _ _ _) _ (map code (String.list_ascii_of_string "hello world"))
      eq_refl _); reflexivity.
  - refine (proj1 (proj2 (count_tokens_tiers written_order all_bundled
      fresh_grid "hello world" "gpt-4:latest"
      (Some (TikToken word_encoding)) fresh_grid [] _))
      _ [0; 0] eq_refl _); reflexivity.
Defined.

(** C8: if the encoder of every tokenizer that [_get_tokenizer] can hand
    out for the call is total, [count_tokens] raises nothing and returns a
    non-negative integer, for every text and model identifier. *)
Theorem count_tokens_total (P : Process) (env : Env) (self : LocalGrid)
    (text model_name : string) :
  (∀ tok self' evs,
     _get_tokenizer P env self model_name = (Some tok, self', evs) →
     total_encoding tok) →
  ∃ n, (count_tokens P env self text model_name).1.1 = Return n ∧ 0 ≤ n.
Proof.
  intros Htotal. unfold count_tokens.
  destruct (_get_tokenizer P env self model_name) as [[[[e|t]|] self'] evs] eqn:Hres;
    cbn [fst].
  - destruct (Htotal _ _ _ eq_refl text []) as [ids Hids].
    exists (len ids). rewrite Hids. split; [done|]. unfold len. lia.
  - destruct (Htotal _ _ _ eq_refl text false) as [ids Hids].
    exists (len ids). rewrite Hids. split; [done|]. unfold len. lia.
  - eexists. split; [done|]. apply Z.div_pos; [lia|done].
Qed.

Lemma count_tokens_total_witness :
  ∃ n, (count_tokens written_order all_bundled fresh_grid
          "hello world" "qwen2.5:7b").1.1 = Return n ∧ 0 ≤ n.
Proof.
  apply count_tokens_total.
  intros tok self' evs H. vm_compute in H. injection H as <- _ _.
  intros text special. eexists. reflexivity.
Defined.

(** *** Counting loads over a sequence of calls *)

Lemma loads_of_app path a b :
  loads_of path (a ++ b) = (loads_of path a + loads_of path b)%nat.
Proof. unfold loads_of. by rewrite List.filter_app, length_app. Qed.

Lemma load_calls_of_app path a b :
  load_calls_of path (a ++ b) = (load_calls_of path a + load_calls_of path b)%nat.
Proof. unfold load_calls_of. by rewrite List.filter_app, length_app. Qed.

Lemma count_tokens_effects P env self text model_name :
  (count_tokens P env self text model_name).1.2
    = (_get_tokenizer P env self model_name).1.2 ∧
  (count_tokens P env self text model_name).2
    = (_get_tokenizer P env self model_name).2.
Proof.
  unfold count_tokens.
  by destruct (_get_tokenizer P env self model_name) as [[tok self'] evs].
Qed.

Lemma run_calls_cons P self env text model_name rest :
  run_calls P self ((env, text, model_name) :: rest) =
  let r := _get_tokenizer P env self model_name in
  ((run_calls P r.1.2 rest).1, r.2 ++ (run_calls P r.1.2 rest).2).
Proof.
  cbn [run_calls].
  destruct (count_tokens_effects P env self text model_name) as [H1 H2].
  destruct (count_tokens P env self text model_name) as [[c self'] evs].
  cbn [fst snd] in H1, H2. subst self' evs.
  by destruct (run_calls P _ rest).
Qed.

Lemma keywords_no_slash :
  Forall (λ k, is_prefix "/" k = false) TOKENIZER_MAP.
Proof. by repeat constructor. Qed.

Lemma tokenizer_path_eqb base f g :
  is_prefix "/" f = false → is_prefix "/" g = false → g ≠ f →
  String.eqb (tokenizer_path base g) (tokenizer_path base f) = false.
Proof.
  intros Hf Hg Hne.
  destruct (String.eqb_spec (tokenizer_path base g) (tokenizer_path base f))
    as [Heq|]; [|done].
  by apply tokenizer_path_inj in Heq.
Qed.

(** A call keeps every cached instance. *)
Lemma get_tokenizer_keeps P env self model_name f t :
  _tokenizer_cache self !! f = Some t →
  _tokenizer_cache (_get_tokenizer P env self model_name).1.2 !! f = Some t.
Proof.
  intros Hf.
  destruct (detected_family P model_name) as [g|] eqn:Hdet.
  - rewrite (get_tokenizer_detected _ _ _ _ _ Hdet).
    destruct (_tokenizer_cache self !! g) eqn:Hg; [done|].
    cbv zeta. destruct (path_exists env _); [|done].
    destruct (from_pretrained env _); [|done].
    cbn [fst snd cache_store _tokenizer_cache].
    rewrite lookup_insert_ne; [done|congruence].
  - by rewrite get_tokenizer_undetected.
Qed.

Lemma run_calls_keeps P self calls f t :
  _tokenizer_cache self !! f = Some t →
  _tokenizer_cache (run_calls P self calls).1 !! f = Some t.
Proof.
  revert self. induction calls as [|[[env text] model_name] rest IH];
    intros self Hf; [done|].
  rewrite run_calls_cons. cbv zeta. cbn [fst].
  by apply IH, get_tokenizer_keeps.
Qed.

Lemma loads_le_load_calls path evs :
  (loads_of path evs ≤ load_calls_of path evs)%nat.
Proof.
  unfold loads_of, load_calls_of.
  induction evs as [|ev evs IH]; [done|].
  cbn [List.filter].
  destruct (is_load_call path true ev), (is_load_call path false ev);
    cbn [orb length]; lia.
Qed.

Section Loads.

(** A process that visits the keyword set in some order, and one keyword. *)
Context (P : Process) (f : string).
Hypothesis order_permutes : set_order P ≡ₚ TOKENIZER_MAP.
Hypothesis f_keyword : f ∈ TOKENIZER_MAP.

Local Abbreviation path_f := (tokenizer_path (base_path P) f).

Lemma keyword_no_slash : is_prefix "/" f = false.
Proof. by apply (proj1 (Forall_forall _ _) keywords_no_slash). Qed.

Lemma detected_no_slash model_name g :
  detected_family P model_name = Some g → is_prefix "/" g = false.
Proof.
  intros Hg%detected_family_in_order. rewrite order_permutes in Hg.
  by apply (proj1 (Forall_forall _ _) keywords_no_slash).
Qed.

(** A call does not ask the loader for a family that is cached. *)
Lemma get_tokenizer_quiet env self model_name t :
  _tokenizer_cache self !! f = Some t →
  load_calls_of path_f (_get_tokenizer P env self model_name).2 = 0%nat.
Proof.
  intros Hf.
  destruct (detected_family P model_name) as [g|] eqn:Hdet.
  - rewrite (get_tokenizer_detected _ _ _ _ _ Hdet).
    destruct (_tokenizer_cache self !! g) eqn:Hg; [done|].
    assert (g ≠ f) as Hne by congruence.
    pose proof (tokenizer_path_eqb (base_path P) f g keyword_no_slash
                  (detected_no_slash _ _ Hdet) Hne) as Heqb.
    cbv zeta. unfold load_calls_of.
    destruct (path_exists env _); [|done].
    destruct (from_pretrained env _); cbn [snd List.filter is_load_call];
      by rewrite Heqb.
  - by rewrite get_tokenizer_undetected.
Qed.

(** A call loads a family at most once, and then the family is cached. *)
Lemma get_tokenizer_loads env self model_name :
  let r := _get_tokenizer P env self model_name in
  loads_of path_f r.2 = 0%nat ∨
  (loads_of path_f r.2 = 1%nat ∧ is_Some (_tokenizer_cache r.1.2 !! f)).
Proof.
  destruct (detected_family P model_name) as [g|] eqn:Hdet.
  - rewrite (get_tokenizer_detected _ _ _ _ _ Hdet).
    destruct (_tokenizer_cache self !! g) eqn:Hg; [by left|].
    cbv zeta. destruct (path_exists env _); [|by left].
    destruct (from_pretrained env _) as [t|e].
    + destruct (decide (g = f)) as [->|Hne].
      * right. split.
        -- unfold loads_of. cbn [snd List.filter is_load_call].
           by rewrite String.eqb_refl.
        -- cbn [fst snd cache_store _tokenizer_cache].
           rewrite lookup_insert_eq. by eexists.
      * left. unfold loads_of. cbn [snd List.filter is_load_call].
        by rewrite (tokenizer_path_eqb _ _ _ keyword_no_slash
                      (detected_no_slash _ _ Hdet) Hne).
    + left. unfold loads_of. cbn [snd List.filter is_load_call].
      by rewrite andb_false_r.
  - rewrite get_tokenizer_undetected by done. by left.
Qed.

Lemma run_calls_quiet self calls t :
  _tokenizer_cache self !! f = Some t →
  load_calls_of path_f (run_calls P self calls).2 = 0%nat.
Proof.
  revert self.
  induction calls as [|[[env text] model_name] rest IH]; intros self Hf; [done|].
  rewrite run_calls_cons. cbv zeta. cbn [snd].
  rewrite load_calls_of_app, (get_tokenizer_quiet _ _ _ t) by done.
  by apply IH, get_tokenizer_keeps.
Qed.

Lemma run_calls_loads self calls :
  (loads_of path_f (run_calls P self calls).2 ≤ 1)%nat.
Proof.
  revert self.
  induction calls as [|[[env text] model_name] rest IH]; intros self.
  { cbn. lia. }
  rewrite run_calls_cons. cbv zeta. cbn [snd]. rewrite loads_of_app.
  destruct (get_tokenizer_loads env self model_name) as [H0|[H1 [t Ht]]].
  - rewrite H0. apply IH.
  - rewrite H1.
    pose proof (loads_le_load_calls path_f
                  (run_calls P (_get_tokenizer P env self model_name).1.2 rest).2).
    rewrite (run_calls_quiet _ _ t) in H by done. lia.
Qed.

(** C7: a family whose tokenizer is in the cache is served from the cache:
    the call returns the cached instance, leaves the instance as it is and
    asks neither the file system nor the loader.  Over any sequence of calls
    the cached instance stays and the loader is not asked for the family
    again.  So, whatever identifiers the calls use, the loader returns a
    tokenizer for one family at most once; and a sequence whose first call
    loads the family asks the loader for it exactly once. *)
Theorem tokenizer_cache_invariant :
  (∀ env self model_name t,
     detected_family P model_name = Some f →
     _tokenizer_cache self !! f = Some t →
     _get_tokenizer P env self model_name = (Some (HuggingFace t), self, [])) ∧
  (∀ self calls t,
     _tokenizer_cache self !! f = Some t →
     _tokenizer_cache (run_calls P self calls).1 !! f = Some t ∧
     load_calls_of path_f (run_calls P self calls).2 = 0%nat) ∧
  (∀ self calls, (loads_of path_f (run_calls P self calls).2 ≤ 1)%nat) ∧
  (∀ self env text model_name t rest,
     detected_family P model_name = Some f →
     _tokenizer_cache self !! f = None →
     path_exists env path_f = true →
     from_pretrained env path_f = Return t →
     load_calls_of path_f
       (run_calls P self ((env, text, model_name) :: rest)).2 = 1%nat).
Proof.
  split; [|split; [|split]].
  - intros env self model_name t Hdet Hf.
    by rewrite (get_tokenizer_detected _ _ _ _ _ Hdet), Hf.
  - intros self calls t Hf. split.
    + by apply run_calls_keeps.
    + by eapply run_calls_quiet.
  - apply run_calls_loads.
  - intros self env text model_name t rest Hdet Hf Hex Hload.
    rewrite run_calls_cons, (get_tokenizer_detected _ _ _ _ _ Hdet), Hf.
    cbv zeta. rewrite Hex, Hload. cbn [fst snd].
    rewrite load_calls_of_app, (run_calls_quiet _ _ t).
    + unfold load_calls_of. cbn [List.filter is_load_call].
      by rewrite String.eqb_refl.
    + cbn [cache_store _tokenizer_cache]. apply lookup_insert_eq.
Qed.

End Loads.

(** The repository's caching test: two identifiers of the llama family, one
    load. *)
Lemma tokenizer_cache_invariant_witness :
  load_calls_of "/site-packages/localgrid/tokenizers/llama"
    (run_calls written_order fresh_grid
       [(all_bundled, "text 1", "llama3.1:latest");
        (all_bundled, "text 2", "llama-3-8b:instruct")]).2 = 1%nat.
Proof.
  refine (proj2 (proj2 (proj2
            (tokenizer_cache_invariant written_order "llama" _ _)))
            fresh_grid all_bundled "text 1" "llama3.1:latest"
            (char_tokenizer "/site-packages/localgrid/tokenizers/llama")
            [(all_bundled, "text 2", "llama-3-8b:instruct")] _ _ _ _).
  - reflexivity.
  - apply (bool_decide_unpack _). vm_compute. exact I.
  - reflexivity.
  - reflexivity.
  - reflexivity.
  - reflexivity.
Defined.

(** After the first call the llama tokenizer is served from the cache, also
    where the bundled directory has disappeared meanwhile. *)
Example second_call_reuses_instance :
  let after_first :=
    (count_tokens written_order all_bundled fresh_grid "text 1"
       "llama3.1:latest").1.2 in
  _get_tokenizer written_order nothing_bundled after_first "llama-3-8b:instruct"
  = (Some (HuggingFace
             (char_tokenizer "/site-packages/localgrid/tokenizers/llama")),
     after_first, []).
Proof. vm_compute. reflexivity. Qed.

(** C9: let an identifier detect a family that is not in the cache.  If the
    bundled path does not exist, or exists and the loader raises, the call
    returns the default tokenizer and leaves the instance, its cache
    included, as it was; in the second case one warning is printed.  On the
    instance so left, any later call for the family asks the file system
    again and, where the path exists, the loader again. *)
Theorem failed_load_not_cached (P : Process) (env : Env) (self : LocalGrid)
    (model_name f : string) :
  detected_family P model_name = Some f →
  _tokenizer_cache self !! f = None →
  let path := tokenizer_path (base_path P) f in
  (path_exists env path = false →
   _get_tokenizer P env self model_name
     = (default_tokenizer self, self, [EvExists path false])) ∧
  (∀ err, path_exists env path = true → from_pretrained env path = Raise err →
   _get_tokenizer P env self model_name
     = (default_tokenizer self, self,
        [EvExists path true; EvFromPretrained path false; EvWarning f err])) ∧
  (∀ env' model_name',
     detected_family P model_name' = Some f →
     ∃ rest,
       (_get_tokenizer P env' self model_name').2
         = EvExists path (path_exists env' path) :: rest ∧
       (path_exists env' path = true →
        ∃ loaded rest', rest = EvFromPretrained path loaded :: rest')).
Proof.
  intros Hdet Hf path. split; [|split].
  - intros Hex. rewrite (get_tokenizer_detected _ _ _ _ _ Hdet), Hf.
    cbv zeta. fold path. by rewrite Hex.
  - intros err Hex Herr. rewrite (get_tokenizer_detected _ _ _ _ _ Hdet), Hf.
    cbv zeta. fold path. by rewrite Hex, Herr.
  - intros env' model_name' Hdet'.
    rewrite (get_tokenizer_detected _ _ _ _ _ Hdet'), Hf.
    cbv zeta. fold path.
    destruct (path_exists env' path); [|by eexists].
    destruct (from_pretrained env' path); eexists; (split; [done|]);
      intros _; by do 2 eexists.
Qed.

Lemma failed_load_not_cached_witness :
  _get_tokenizer written_order nothing_bundled fresh_grid "mistral:7b"
    = (Some (TikToken word_encoding), fresh_grid,
       [EvExists "/site-packages/localgrid/tokenizers/mistral" false]) ∧
  _get_tokenizer written_order broken_bundles fresh_grid "mistral:7b"
    = (Some (TikToken word_encoding), fresh_grid,
       [EvExists "/site-packages/localgrid/tokenizers/mistral" true;
        EvFromPretrained "/site-packages/localgrid/tokenizers/mistral" false;
        EvWarning "mistral" (OtherException "corrupt tokenizer files")]).
Proof.
  split.
  - refine (proj1 (failed_load_not_cached written_order nothing_bundled
                     fresh_grid "mistral:7b" "mistral" _ _) _); reflexivity.
  - refine (proj1 (proj2 (failed_load_not_cached written_order broken_bundles
                     fresh_grid "mistral:7b" "mistral" _ _)) _ _ _); reflexivity.
Defined.

(** Two calls for one family whose bundle does not load: the loader is asked
    twice. *)
Example failed_load_is_retried :
  load_calls_of "/site-packages/localgrid/tokenizers/mistral"
    (run_calls written_order fresh_grid
       [(broken_bundles, "text 1", "mistral:7b");
        (broken_bundles, "text 2", "mistral-nemo:12b")]).2 = 2%nat.
Proof. vm_compute. reflexivity. Qed.

(** ** Family detection over the keyword set *)

Lemma find_unique {A} (pred : A → bool) (l : list A) (k : A) :
  In k l → pred k = true → (∀ g, In g l → pred g = true → g = k) →
  find pred l = Some k.
Proof.
  induction l as [|a l IH]; [done|].
  intros Hin Hk Huniq. cbn [find].
  destruct (pred a) eqn:Ha.
  - f_equal. apply Huniq; [by left|done].
  - destruct Hin as [->|Hin]; [congruence|].
    apply IH; [done..|]. intros g Hg. apply Huniq. by right.
Qed.

Lemma keywords_unambiguous :
  forallb (λ k, String.eqb k "codellama" || unambiguous k) TOKENIZER_MAP = true.
Proof. vm_compute. reflexivity. Qed.

Lemma keywords_plain :
  forallb (λ k, negb (has_char ":" k) && negb (String.eqb k EmptyString))
    TOKENIZER_MAP = true.
Proof. vm_compute. reflexivity. Qed.

Lemma keyword_identifier P k tag :
  k ∈ TOKENIZER_MAP →
  detected_family P (k +:+ ":" +:+ tag) =
  match detect_family (set_order P) k with
  | None | Some EmptyString => None
  | Some f => Some f
  end.
Proof.
  intros Hk%list_elem_of_In. unfold detected_family.
  pose proof (proj1 (forallb_forall _ _) keywords_plain k Hk) as Hplain.
  apply andb_true_iff in Hplain as [Hsep%negb_true_iff _].
  by rewrite has_sep_append, split_head_append.
Qed.

(** Every keyword but "codellama" is detected as itself, in whatever order
    the set is visited, and the path asked of the file system contains it. *)
Lemma keyword_detects_itself P k tag :
  set_order P ≡ₚ TOKENIZER_MAP → k ∈ TOKENIZER_MAP → k ≠ "codellama" →
  detected_family P (k +:+ ":" +:+ tag) = Some k ∧
  str_in k (tokenizer_path (base_path P) k) = true.
Proof.
  intros Hperm Hk Hne. split; [|apply tokenizer_path_contains].
  rewrite keyword_identifier by done.
  apply list_elem_of_In in Hk.
  pose proof (proj1 (forallb_forall _ _) keywords_plain k Hk) as Hplain.
  apply andb_true_iff in Hplain as [_ Hnonempty%negb_true_iff].
  pose proof (proj1 (forallb_forall _ _) keywords_unambiguous k Hk) as Hun.
  apply orb_true_iff in Hun as [Heq%String.eqb_eq|Hun]; [done|].
  unfold detect_family.
  rewrite (find_unique _ _ k).
  - destruct k; [done|done].
  - apply (Permutation_in _ (Permutation_sym Hperm) Hk).
  - apply str_in_refl.
  - intros g Hg Hsub. apply (Permutation_in _ Hperm) in Hg.
    unfold unambiguous in Hun.
    pose proof (proj1 (forallb_forall _ _) Hun g Hg) as Himp.
    cbv beta in Himp. rewrite Hsub in Himp. by apply String.eqb_eq.
Qed.

(** For "codellama" the order decides: the family detected is "codellama"
    or "llama". *)
Lemma codellama_detects_either P tag :
  set_order P ≡ₚ TOKENIZER_MAP →
  detected_family P ("codellama" +:+ ":" +:+ tag) = Some "codellama" ∨
  detected_family P ("codellama" +:+ ":" +:+ tag) = Some "llama".
Proof.
  intros Hperm. rewrite keyword_identifier.
  2:{ apply (bool_decide_unpack _). vm_compute. exact I. }
  unfold detect_family.
  destruct (find _ _) as [g|] eqn:Hfind.
  - apply find_some in Hfind as [Hg Hsub].
    apply (Permutation_in _ Hperm) in Hg.
    assert (g = "codellama" ∨ g = "llama") as [->| ->]; [|by left|by right].
    unfold TOKENIZER_MAP in Hg. cbn [In] in Hg.
    repeat (destruct Hg as [<-|Hg]; [first [by left|by right|by vm_compute in Hsub]|]).
    done.
  - assert (In "codellama" (set_order P)) as Hin.
    { apply (Permutation_in _ (Permutation_sym Hperm)).
      unfold TOKENIZER_MAP. cbn [In]. tauto. }
    by pose proof (find_none _ _ Hfind "codellama" Hin).
Qed.

Lemma llama_first_is_permutation : set_order llama_first ≡ₚ TOKENIZER_MAP.
Proof.
  exact (Permutation_middle
           ["aya"; "codellama"; "codestral"; "command-r"; "dbrx"; "deepseek";
            "falcon"; "gemma"; "granite"]
           ["mistral"; "mixtral"; "olmo"; "phi"; "qwen"; "solar"; "starcoder";
            "yi"] "llama").
Qed.

(** C6 fails on the code for "codellama": when the interpreter visits
    "llama" before "codellama", the identifier "codellama:latest" is routed
    to the llama directory, and the path given to the loader does not
    contain "codellama".  (For every other keyword the claim holds in every
    order, by [keyword_detects_itself].) *)
Theorem codellama_routed_to_llama :
  set_order llama_first ≡ₚ TOKENIZER_MAP ∧
  "codellama" ∈ TOKENIZER_MAP ∧
  _get_tokenizer llama_first all_bundled fresh_grid "codellama:latest"
    = (Some (HuggingFace
               (char_tokenizer "/site-packages/localgrid/tokenizers/llama")),
       cache_store fresh_grid "llama"
         (char_tokenizer "/site-packages/localgrid/tokenizers/llama"),
       [EvExists "/site-packages/localgrid/tokenizers/llama" true;
        EvFromPretrained "/site-packages/localgrid/tokenizers/llama" true]) ∧
  str_in "codellama" "/site-packages/localgrid/tokenizers/llama" = false.
Proof.
  split; [apply llama_first_is_permutation|].
  split; [apply (bool_decide_unpack _); vm_compute; exact I|].
  split; vm_compute; reflexivity.
Qed.

(** The repository's routing test, with the set visited as written. *)
Example test_selects_correct_hf_tokenizer_family :
  forallb
    (λ k, match (_get_tokenizer written_order all_bundled fresh_grid
                   (k +:+ ":latest")).2 with
          | [_; EvFromPretrained path _] => str_in ("tokenizers/" +:+ k) path
          | _ => false
          end)
    ["codellama"; "codestral"; "deepseek"; "falcon"; "gemma"; "granite";
     "llama"; "mistral"; "phi"; "qwen"; "starcoder"; "yi"] = true.
Proof. vm_compute. reflexivity. Qed.

(** ** The package's import statement *)

(** A statement that asks for a name the module lacks raises. *)
Lemma from_import_missing (namespace names : list string) (n : string) :
  n ∈ names → n ∉ namespace → from_import namespace names = Raise ImportError.
Proof.
  intros Hin Hmiss. induction names as [|m names IH]; [by inversion Hin|].
  cbn [from_import]. destruct (bool_decide_reflect (m ∈ namespace)) as [Hm|]; [|done].
  rewrite IH; [done|]. apply elem_of_cons in Hin as [->|]; done.
Qed.

(** C10: [__init__.py] asks [.core] for the names usage, count, limit and
    preload, and [core.py] binds none of them, so [import localgrid] ends
    with [ImportError].  The class [LocalGrid] with the two public operations
    is bound by the body of [core.py] alone; but the statement
    [from localgrid.core import LocalGrid], which the repository's tests use,
    runs [__init__.py] first and ends with the same [ImportError]. *)
Theorem package_import_fails :
  Forall (λ n, n ∉ core_names) init_imports ∧
  import_package = Raise ImportError ∧
  exec_core = Return core_names ∧
  "LocalGrid" ∈ core_names ∧
  "count_tokens" ∈ LocalGrid_methods ∧
  "get_model_token_limit" ∈ LocalGrid_methods ∧
  from_core_import ["LocalGrid"] = Raise ImportError.
Proof.
  assert (∀ (x : string) (l : list string),
            bool_decide (x ∈ l) = true → x ∈ l) as Hin.
  { intros x l. apply bool_decide_eq_true_1. }
  assert (∀ (x : string) (l : list string),
            bool_decide (x ∈ l) = false → x ∉ l) as Hout.
  { intros x l. apply bool_decide_eq_false_1. }
  split; [repeat constructor; by apply Hout|].
  split; [reflexivity|].
  split; [reflexivity|].
  repeat split; try (by apply Hin); reflexivity.
Qed.


(** * Further properties of the code *)

(** ** Loading the store *)

Example remove_sub_examples :
  map (remove_sub "_data.json")
      ["ollama_data.json"; "lm_studio_data.json"; "a_data.json_data.json";
       "_data_data.json.json"; "notes.txt"]
  = ["ollama"; "lm_studio"; "a"; "_data.json"; "notes.txt"].
Proof. vm_compute. reflexivity. Qed.

Lemma scan_files_app read a b d :
  scan_files read (a ++ b) d =
  match scan_files read a d with
  | (d', None) => scan_files read b d'
  | (d', Some e) => (d', Some e)
  end.
Proof.
  revert d. induction a as [|f a IH]; intros d; [done|].
  cbn [app scan_files].
  destruct (ends_with "_data.json" f); [|apply IH].
  destruct (read f) as [e|models]; [done|].
  destruct (index_models models ∅) as [e|m]; [done|]. apply IH.
Qed.

(** X1: only the files whose name ends in [_data.json] count: the result of
    [_load_all_dbs] is that of loading just those files, in the same order;
    the others are neither opened nor parsed. *)
Theorem load_ignores_other_files (names : list string)
    (read_json : string → load_error + list RawModel) :
  _load_all_dbs (inr names) read_json =
  _load_all_dbs (inr (List.filter (ends_with "_data.json") names)) read_json.
Proof.
  unfold _load_all_dbs. f_equal.
  generalize (@nil (string * ProviderRecord)) as d.
  induction names as [|f names IH]; intros d; [done|].
  cbn [List.filter scan_files].
  destruct (ends_with "_data.json" f) eqn:Hf; [|apply IH].
  cbn [scan_files]. rewrite Hf.
  destruct (read_json f) as [e|models]; [done|].
  destruct (index_models models ∅) as [e|m]; [done|]. apply IH.
Qed.

(** X2: a [FileNotFoundError] or [ModuleNotFoundError] ends the scan
    silently.  When the files before [f] load and reading [f] raises one of
    the two, [_load_all_dbs] returns the store built from the files before
    [f]; the files after [f] are not loaded.  When listing the data package
    itself raises one of the two, the store is empty. *)
Theorem load_stops_at_missing_file
    (read_json : string → load_error + list RawModel)
    (pre post : list string) (f : string) (d : Store) (e : load_error) :
  is_missing_error e = true →
  scan_files read_json pre [] = (d, None) →
  ends_with "_data.json" f = true →
  read_json f = inl e →
  _load_all_dbs (inr (pre ++ f :: post)) read_json = inr d ∧
  _load_all_dbs (inr pre) read_json = inr d ∧
  _load_all_dbs (inl e) read_json = inr [].
Proof.
  intros He Hpre Hf Hread. unfold _load_all_dbs.
  rewrite scan_files_app, Hpre. cbn [scan_files]. rewrite Hf, Hread, He.
  done.
Qed.

Lemma index_models_error models acc e :
  index_models models acc = inl e →
  e = KeyError "parent_model" ∧ ∃ model, model ∈ models ∧ raw_parent_model model = None.
Proof.
  revert acc. induction models as [|model models IH]; intros acc; [done|].
  cbn [index_models]. destruct (raw_parent_model model) as [name|] eqn:Hname.
  - intros [-> (m & Hm & Hnone)]%IH. split; [done|].
    exists m. split; [by right|done].
  - intros [= <-]. split; [done|]. exists model. split; [by left|done].
Qed.

Lemma index_models_missing_key models acc model :
  model ∈ models → raw_parent_model model = None →
  index_models models acc = inl (KeyError "parent_model").
Proof.
  intros Hin Hnone. revert acc.
  induction models as [|m models IH]; intros acc; [by inversion Hin|].
  cbn [index_models]. destruct (raw_parent_model m) as [name|] eqn:Hname; [|done].
  apply IH. apply elem_of_cons in Hin as [->|]; [congruence|done].
Qed.

(** X3: every other exception leaves [_load_all_dbs], and with it the
    constructor.  When the files before [f] load, and either reading [f]
    raises an exception other than the two caught ones, or [f] holds a model
    object without the key [parent_model], then [_load_all_dbs] raises (that
    exception, or [KeyError]) and no instance is built. *)
Theorem load_raises_other_errors
    (read_json : string → load_error + list RawModel)
    (pre post : list string) (f : string) (d : Store) :
  scan_files read_json pre [] = (d, None) →
  ends_with "_data.json" f = true →
  (∀ e, read_json f = inl e → is_missing_error e = false →
     _load_all_dbs (inr (pre ++ f :: post)) read_json = inl e ∧
     ∀ get_encoding,
       new_LocalGrid (inr (pre ++ f :: post)) read_json get_encoding = inl e) ∧
  (∀ model_list model,
     read_json f = inr model_list → model ∈ model_list →
     raw_parent_model model = None →
     _load_all_dbs (inr (pre ++ f :: post)) read_json
       = inl (KeyError "parent_model") ∧
     ∀ get_encoding,
       new_LocalGrid (inr (pre ++ f :: post)) read_json get_encoding
         = inl (KeyError "parent_model")).
Proof.
  intros Hpre Hf. split.
  - intros e Hread He.
    assert (_load_all_dbs (inr (pre ++ f :: post)) read_json = inl e) as Hload.
    { unfold _load_all_dbs. rewrite scan_files_app, Hpre.
      cbn [scan_files]. by rewrite Hf, Hread, He. }
    split; [done|]. intros enc. unfold new_LocalGrid. by rewrite Hload.
  - intros models model Hread Hin Hnone.
    assert (_load_all_dbs (inr (pre ++ f :: post)) read_json
            = inl (KeyError "parent_model")) as Hload.
    { unfold _load_all_dbs. rewrite scan_files_app, Hpre.
      cbn [scan_files]. rewrite Hf, Hread.
      by rewrite (index_models_missing_key _ _ model). }
    split; [done|]. intros enc. unfold new_LocalGrid. by rewrite Hload.
Qed.

(** *** The dictionary of providers *)

Lemma dict_set_keys {V} k (v : V) d :
  map fst (dict_set k v d) =
  if bool_decide (k ∈ map fst d) then map fst d else map fst d ++ [k].
Proof.
  induction d as [|[k' v'] d IH]; [done|].
  cbn [dict_set map fst]. destruct (String.eqb_spec k' k) as [->|Hne].
  - cbn [map fst]. by rewrite bool_decide_eq_true_2 by left.
  - cbn [map fst]. rewrite IH.
    destruct (bool_decide_reflect (k ∈ map fst d)) as [Hin|Hout].
    + by rewrite bool_decide_eq_true_2 by (by right).
    + rewrite bool_decide_eq_false_2; [done|].
      intros [?|?]%elem_of_cons; congruence.
Qed.

Lemma dict_set_NoDup {V} k (v : V) d :
  NoDup (map fst d) → NoDup (map fst (dict_set k v d)).
Proof.
  intros Hd. rewrite dict_set_keys.
  destruct (bool_decide_reflect (k ∈ map fst d)) as [Hin|Hout]; [done|].
  apply NoDup_app. split; [done|]. split; [|apply NoDup_singleton].
  intros x Hx ->%list_elem_of_singleton. done.
Qed.

Lemma scan_files_keys read names d d' err :
  scan_files read names d = (d', err) →
  NoDup (map fst d) →
  NoDup (map fst d') ∧
  ∀ k, k ∈ map fst d' →
       k ∈ map fst d ∨
       ∃ f, f ∈ names ∧ ends_with "_data.json" f = true ∧
            k = remove_sub "_data.json" f.
Proof.
  revert d. induction names as [|f names IH]; intros d.
  { intros [= <- <-] Hd. split; [done|]. by left. }
  cbn [scan_files]. destruct (ends_with "_data.json" f) eqn:Hf.
  - destruct (read f) as [e|models].
    { intros [= <- <-] Hd. split; [done|]. by left. }
    destruct (index_models models ∅) as [e|m].
    { intros [= <- <-] Hd. split; [done|]. by left. }
    intros Hscan Hd.
    destruct (IH _ Hscan (dict_set_NoDup _ _ _ Hd)) as [Hnd Hkeys].
    split; [done|]. intros k Hk.
    destruct (Hkeys k Hk) as [Hin|(g & Hg & Hgs & ->)].
    + rewrite dict_set_keys in Hin.
      destruct (bool_decide (_ ∈ map fst d)); [by left|].
      apply elem_of_app in Hin as [?|Hin]; [by left|].
      apply list_elem_of_singleton in Hin as ->.
      right. exists f. split; [by left|done].
    + right. exists g. split; [by right|done].
  - intros Hscan Hd. destruct (IH _ Hscan Hd) as [Hnd Hkeys].
    split; [done|]. intros k Hk.
    destruct (Hkeys k Hk) as [Hin|(g & Hg & Hgs & ->)]; [by left|].
    right. exists g. split; [by right|done].
Qed.

(** X4: in every store that [_load_all_dbs] returns, provider names are
    unique, and each is the name of a listed [_data.json] file with every
    occurrence of [_data.json] removed. *)
Theorem loaded_provider_names (contents : load_error + list string)
    (read_json : string → load_error + list RawModel) (db : Store) :
  _load_all_dbs contents read_json = inr db →
  NoDup (map fst db) ∧
  ∀ k, k ∈ map fst db →
       ∃ names f, contents = inr names ∧ f ∈ names ∧
                  ends_with "_data.json" f = true ∧
                  k = remove_sub "_data.json" f.
Proof.
  unfold _load_all_dbs. destruct contents as [e|names].
  - destruct (is_missing_error e); [|done]. intros [= <-].
    split; [constructor|]. intros k Hk. by inversion Hk.
  - destruct (scan_files read_json names []) as [d err] eqn:Hscan.
    intros Hdb. assert (d = db) as ->.
    { destruct err as [e|]; [|congruence].
      destruct (is_missing_error e); congruence. }
    destruct (scan_files_keys _ _ _ _ _ Hscan) as [Hnd Hkeys]; [constructor|].
    split; [done|]. intros k Hk.
    destruct (Hkeys k Hk) as [Hin|(f & Hf & Hfs & ->)]; [by inversion Hin|].
    by exists names, f.
Qed.

(** *** The dictionary of one provider *)

Lemma index_models_lookup models acc m name :
  index_models models acc = inr m →
  m !! name =
  match last (filter (λ model, raw_parent_model model = Some name) models) with
  | Some model => Some (as_record name model)
  | None => acc !! name
  end.
Proof.
  revert acc. induction models as [|model models IH]; intros acc.
  { by intros [= <-]. }
  cbn [index_models]. destruct (raw_parent_model model) as [n|] eqn:Hn; [|done].
  intros Hm. rewrite (IH _ Hm). rewrite filter_cons.
  destruct (decide (raw_parent_model model = Some name)) as [Heq|Hne].
  - assert (n = name) as -> by congruence.
    destruct (filter _ models) as [|x l] eqn:Hfil.
    + cbn. apply lookup_insert_eq.
    + rewrite last_cons_cons.
      destruct (last (x :: l)) eqn:Hl; [done|]. by apply last_None in Hl.
  - destruct (last _); [done|].
    rewrite lookup_insert_ne; [done|congruence].
Qed.

(** X5: within one provider file a parent name that occurs several times
    keeps its last model object: in the provider's dictionary a parent name
    is bound to the last model of the file with that [parent_model], and is
    unbound when the file has none. *)
Theorem last_model_wins (model_list : list RawModel) (m : ProviderRecord)
    (name : string) :
  index_models model_list ∅ = inr m →
  m !! name =
  as_record name <$>
    last (filter (λ model, raw_parent_model model = Some name) model_list).
Proof.
  intros Hm. rewrite (index_models_lookup _ _ _ name Hm).
  by destruct (last _).
Qed.

(** *** From file name to provider name *)

Lemma ends_with_refl suffix : ends_with suffix suffix = true.
Proof. destruct suffix; cbn [ends_with]; by rewrite String.eqb_refl. Qed.

Lemma ends_with_append p suffix : ends_with suffix (p +:+ suffix) = true.
Proof.
  induction p as [|c p IH]; [apply ends_with_refl|].
  rewrite append_cons. cbn [ends_with]. rewrite IH. apply orb_true_r.
Qed.

Lemma str_in_cons_false sub c s :
  str_in sub (String c s) = false →
  is_prefix sub (String c s) = false ∧ str_in sub s = false.
Proof. cbn [str_in]. by intros [? ?]%orb_false_iff. Qed.

(** No occurrence of [_data.json] starts inside [q] and runs into a
    following [_data.json]: the suffix has one underscore, at its start. *)
Lemma suffix_no_straddle c q :
  is_prefix "_data.json" (String c q +:+ "_data.json") = true →
  is_prefix "_data.json" (String c q) = true.
Proof.
  rewrite append_cons. cbn [is_prefix].
  intros [Hc H]%andb_true_iff. rewrite Hc. cbn [andb].
  repeat
    (destruct q as [|? q];
     [change (EmptyString +:+ "_data.json") with "_data.json" in H;
      vm_compute in H; discriminate H
     |rewrite append_cons in H; cbn [is_prefix] in H |- *;
      apply andb_true_iff in H as [-> H]; cbn [andb]]).
  done.
Qed.

Lemma remove_sub_append p :
  str_in "_data.json" p = false →
  remove_sub "_data.json" (p +:+ "_data.json") = p.
Proof.
  unfold remove_sub. induction p as [|c p IH]; [done|].
  intros [Hpre Hin]%str_in_cons_false.
  rewrite append_cons.
  change (remove_sub_from "_data.json" (String c (p +:+ "_data.json")) 0)
    with (if is_prefix "_data.json" (String c (p +:+ "_data.json"))
          then remove_sub_from "_data.json" (p +:+ "_data.json")
                 (String.length "_data.json" - 1)
          else String c (remove_sub_from "_data.json" (p +:+ "_data.json") 0)).
  destruct (is_prefix "_data.json" (String c (p +:+ "_data.json"))) eqn:Hs.
  - rewrite <- append_cons in Hs. apply suffix_no_straddle in Hs. congruence.
  - by rewrite IH.
Qed.

(** X6: a provider file is found again under its own name.  If [_data.json]
    does not occur in [p], the file [p_data.json] is accepted by the scan,
    its provider name is [p], and loading it alone gives a store with the
    one provider [p] bound to the dictionary of its models. *)
Theorem provider_name_round_trip (p : string)
    (read_json : string → load_error + list RawModel)
    (model_list : list RawModel) (m : ProviderRecord) :
  str_in "_data.json" p = false →
  read_json (p +:+ "_data.json") = inr model_list →
  index_models model_list ∅ = inr m →
  ends_with "_data.json" (p +:+ "_data.json") = true ∧
  remove_sub "_data.json" (p +:+ "_data.json") = p ∧
  _load_all_dbs (inr [p +:+ "_data.json"]) read_json = inr [(p, m)].
Proof.
  intros Hp Hread Hm.
  split; [apply ends_with_append|]. split; [by apply remove_sub_append|].
  unfold _load_all_dbs. cbn [scan_files].
  by rewrite ends_with_append, Hread, Hm, remove_sub_append.
Qed.

(** *** The sample directory *)

Example sample_directory_loads :
  _load_all_dbs
    (inr ["__init__.py"; "ollama_data.json"; "lmstudio_data.json"])
    sample_read_json = inr sample_store.
Proof. vm_compute. reflexivity. Qed.

Lemma load_stops_at_missing_file_witness :
  _load_all_dbs
    (inr (["__init__.py"; "ollama_data.json"]
          ++ "vanished_data.json" :: ["lmstudio_data.json"]))
    sample_read_json = inr [hd (EmptyString, ∅) sample_store] ∧
  _load_all_dbs (inr ["__init__.py"; "ollama_data.json"]) sample_read_json
    = inr [hd (EmptyString, ∅) sample_store] ∧
  _load_all_dbs (inl FileNotFoundError) sample_read_json = inr [].
Proof.
  apply (load_stops_at_missing_file sample_read_json
           ["__init__.py"; "ollama_data.json"] ["lmstudio_data.json"]
           "vanished_data.json" [hd (EmptyString, ∅) sample_store]
           FileNotFoundError); vm_compute; reflexivity.
Defined.

Lemma load_raises_other_errors_witness :
  _load_all_dbs (inr (["ollama_data.json"] ++ "broken_data.json" :: []))
    sample_read_json = inl (OtherLoadError "JSONDecodeError") ∧
  _load_all_dbs (inr (["ollama_data.json"] ++ "nameless_data.json" :: []))
    sample_read_json = inl (KeyError "parent_model").
Proof.
  split.
  - refine (proj1 (proj1 (load_raises_other_errors sample_read_json
                     ["ollama_data.json"] [] "broken_data.json"
                     [hd (EmptyString, ∅) sample_store] _ _) _ _ _)).
    + vm_compute; reflexivity.
    + reflexivity.
    + reflexivity.
    + reflexivity.
  - refine (proj1 (proj2 (load_raises_other_errors sample_read_json
                     ["ollama_data.json"] [] "nameless_data.json"
                     [hd (EmptyString, ∅) sample_store] _ _)
                     [nameless_model] nameless_model _ _ _)).
    + vm_compute; reflexivity.
    + reflexivity.
    + reflexivity.
    + apply list_elem_of_here.
    + reflexivity.
Defined.

Lemma loaded_provider_names_witness :
  NoDup (map fst sample_store).
Proof.
  refine (proj1 (loaded_provider_names
                   (inr ["__init__.py"; "ollama_data.json"; "lmstudio_data.json"])
                   sample_read_json sample_store _)).
  vm_compute; reflexivity.
Defined.

Lemma last_model_wins_witness :
  (snd (hd (EmptyString, ∅) sample_store) : ProviderRecord) !! "llama3.1"
  = Some (model_with "llama3.1" [("latest", {[ "context" := PyStr "128K" ]})]).
Proof.
  rewrite (last_model_wins ollama_models _ "llama3.1");
    vm_compute; reflexivity.
Defined.

Lemma provider_name_round_trip_witness :
  remove_sub "_data.json" ("lm_studio" +:+ "_data.json") = "lm_studio" ∧
  _load_all_dbs (inr ["ollama" +:+ "_data.json"]) sample_read_json
    = inr [hd (EmptyString, ∅) sample_store].
Proof.
  split.
  - refine (proj1 (proj2 (provider_name_round_trip "lm_studio"
                     (λ _, inr []) [] ∅ _ _ _))); reflexivity.
  - refine (proj2 (proj2 (provider_name_round_trip "ollama" sample_read_json
                     ollama_models _ _ _ _))); vm_compute; reflexivity.
Defined.

(** ** The store query, beyond the first match *)




(** With two providers that disagree the order does matter. *)
Example limit_order_matters :
  get_model_token_limit
    [("a", single_entry "m" "t" {[ "context" := PyStr "4K" ]});
     ("b", single_entry "m" "t" {[ "context" := PyStr "8K" ]})] "m:t"
    = Return 4096 ∧
  get_model_token_limit
    [("b", single_entry "m" "t" {[ "context" := PyStr "8K" ]});
     ("a", single_entry "m" "t" {[ "context" := PyStr "4K" ]})] "m:t"
    = Return 8192.
Proof. split; vm_compute; reflexivity. Qed.

Lemma provider_yield_range p parent tag z :
  provider_yield p parent tag = Some z → (1024 | z) ∨ 1000 < z.
Proof.
  unfold provider_yield.
  destruct (found_record p parent tag) as [td|]; [|done].
  rewrite interpret_context_parsed.
  destruct (parsed_integer (context_of td)) as [n|]; [|done].
  cbn [bind].
  destruct (has_char "K" (upper (str (context_of td))) || (n <=? 1000)) eqn:Hk;
    intros [= <-].
  - left. by exists n.
  - apply orb_false_iff in Hk as [_ Hk]. right. lia.
Qed.

(** X8: [get_model_token_limit] never returns a small literal.  Whatever
    the store holds, the integer returned is a multiple of 1024 (the default
    8192 is one) or exceeds 1000; an integer from 1 to 1000 is never
    returned. *)
Theorem limit_is_scaled_or_large (db : Store) (model_name : string) (z : Z) :
  get_model_token_limit db model_name = Return z →
  ((1024 | z) ∨ 1000 < z) ∧ ¬ (1 ≤ z ≤ 1000).
Proof.
  intros Hz.
  assert ((1024 | z) ∨ 1000 < z) as Hrange.
  { unfold get_model_token_limit in Hz.
    destruct (has_char ":" model_name).
    - destruct (scan_providers_result (values db) (split_head ":" model_name)
                  (split_tail ":" model_name)) as (z' & Hz' & Hcase).
      rewrite Hz' in Hz. injection Hz as ->.
      destruct Hcase as [->|(p & _ & Hy)]; [left; by exists 8|].
      by eapply provider_yield_range.
    - injection Hz as <-. left. by exists 8. }
  split; [done|]. intros [H1 H2].
  destruct Hrange as [[k ->]|?]; lia.
Qed.

Lemma limit_is_scaled_or_large_witness :
  ((1024 | 131072) ∨ 1000 < 131072) ∧ ¬ (1 ≤ 131072 ≤ 1000).
Proof.
  apply (limit_is_scaled_or_large MOCK_DB_DATA "llama3.1:8b").
  vm_compute. reflexivity.
Defined.

(** ** Family detection, in general *)

Lemma keywords_NoDup : NoDup TOKENIZER_MAP.
Proof. apply (bool_decide_unpack _). vm_compute. exact I. Qed.

Lemma keyword_nonempty k : k ∈ TOKENIZER_MAP → k ≠ EmptyString.
Proof.
  intros Hk%list_elem_of_In.
  pose proof (proj1 (forallb_forall _ _) keywords_plain k Hk) as Hplain.
  apply andb_true_iff in Hplain as [_ Hne%negb_true_iff].
  by apply String.eqb_neq.
Qed.

Lemma detected_family_spec P model_name f :
  detected_family P model_name = Some f ↔
  has_char ":" model_name = true ∧ f ≠ EmptyString ∧
  find (λ family, str_in family (split_head ":" model_name)) (set_order P)
    = Some f.
Proof.
  unfold detected_family, detect_family.
  destruct (has_char ":" model_name); [|by split; [|intros [? _]]].
  destruct (find _ _) as [[|c g]|].
  - split; [done|]. by intros (_ & Hne & [= <-]).
  - split.
    + by intros [= <-].
    + by intros (_ & _ & [= <-]).
  - split; [done|]. by intros (_ & _ & ?).
Qed.

(** X9: the family detected is a keyword of the set that occurs in the
    parent name; and when exactly one keyword occurs in the parent name of an
    identifier with a separator, that keyword is detected in whatever order
    the set is visited.  When none occurs, no family is detected. *)
Theorem detection_sound_and_unique (P : Process) (model_name : string) :
  set_order P ≡ₚ TOKENIZER_MAP →
  (∀ f, detected_family P model_name = Some f →
        has_char ":" model_name = true ∧ f ∈ TOKENIZER_MAP ∧
        str_in f (split_head ":" model_name) = true) ∧
  (∀ k, has_char ":" model_name = true → k ∈ TOKENIZER_MAP →
        str_in k (split_head ":" model_name) = true →
        (∀ g, g ∈ TOKENIZER_MAP →
              str_in g (split_head ":" model_name) = true → g = k) →
        detected_family P model_name = Some k) ∧
  ((∀ g, g ∈ TOKENIZER_MAP → str_in g (split_head ":" model_name) = false) →
   detected_family P model_name = None).
Proof.
  intros Hperm. split; [|split].
  - intros f (Hsep & _ & Hfind)%detected_family_spec.
    apply find_some in Hfind as [Hin Hsub].
    split; [done|]. split; [|done].
    rewrite <- Hperm. by apply list_elem_of_In.
  - intros k Hsep Hk Hsub Huniq. apply detected_family_spec.
    split; [done|]. split; [by apply keyword_nonempty|].
    apply find_unique; [|done|].
    + apply list_elem_of_In. by rewrite Hperm.
    + intros g Hg%list_elem_of_In. rewrite Hperm in Hg. by apply Huniq.
  - intros Hnone. destruct (detected_family P model_name) as [f|] eqn:Hf; [|done].
    apply detected_family_spec in Hf as (_ & _ & Hfind).
    apply find_some in Hfind as [Hin%list_elem_of_In Hsub].
    rewrite Hperm in Hin. rewrite (Hnone f Hin) in Hsub. done.
Qed.

Lemma detection_sound_and_unique_witness :
  detected_family llama_first "my-llama-finetune:q4" = Some "llama" ∧
  detected_family llama_first "gpt-4:latest" = None.
Proof.
  pose proof (detection_sound_and_unique llama_first "my-llama-finetune:q4"
                llama_first_is_permutation) as (_ & Huniq & _).
  pose proof (detection_sound_and_unique llama_first "gpt-4:latest"
                llama_first_is_permutation) as (_ & _ & Hnone).
  split.
  - apply Huniq; [reflexivity| |reflexivity|].
    + apply (bool_decide_unpack _). vm_compute. exact I.
    + intros g Hg Hsub. unfold TOKENIZER_MAP in Hg.
      repeat (apply elem_of_cons in Hg as [->|Hg];
              [first [reflexivity|by vm_compute in Hsub]|]).
      by inversion Hg.
  - apply Hnone. intros g Hg. unfold TOKENIZER_MAP in Hg.
    repeat (apply elem_of_cons in Hg as [->|Hg]; [by vm_compute|]).
    by inversion Hg.
Defined.

Lemma order_with_first_permutation k :
  k ∈ TOKENIZER_MAP → order_with_first k ≡ₚ TOKENIZER_MAP.
Proof.
  unfold order_with_first. generalize keywords_NoDup.
  generalize TOKENIZER_MAP as l. induction l as [|a l IH]; intros Hnd Hk.
  { by inversion Hk. }
  apply NoDup_cons in Hnd as [Ha Hnd]. cbn [List.filter].
  destruct (String.eqb_spec a k) as [->|Hne]; cbn [negb].
  - constructor.
    assert (List.filter (λ g, negb (String.eqb g k)) l = l) as ->; [|done].
    clear IH Hk Hnd. induction l as [|b l IH]; [done|].
    cbn [List.filter]. apply not_elem_of_cons in Ha as [Hb Ha].
    destruct (String.eqb_spec b k) as [->|_]; [done|].
    cbn [negb]. by rewrite IH.
  - apply elem_of_cons in Hk as [->|Hk]; [done|].
    rewrite Permutation_swap. constructor. by apply IH.
Qed.

(** X10: where two keywords occur in the parent name, the iteration order
    decides.  For two different keywords that both occur in the parent name
    of an identifier with a separator there are two orders of the keyword
    set, one that detects the first keyword and one that detects the
    second. *)
Theorem detection_depends_on_order (base model_name k1 k2 : string) :
  k1 ∈ TOKENIZER_MAP → k2 ∈ TOKENIZER_MAP →
  has_char ":" model_name = true →
  str_in k1 (split_head ":" model_name) = true →
  str_in k2 (split_head ":" model_name) = true →
  let P1 := {| set_order := order_with_first k1; base_path := base |} in
  let P2 := {| set_order := order_with_first k2; base_path := base |} in
  set_order P1 ≡ₚ TOKENIZER_MAP ∧ set_order P2 ≡ₚ TOKENIZER_MAP ∧
  detected_family P1 model_name = Some k1 ∧
  detected_family P2 model_name = Some k2.
Proof.
  intros Hk1 Hk2 Hsep Hs1 Hs2 P1 P2.
  split; [by apply order_with_first_permutation|].
  split; [by apply order_with_first_permutation|].
  split; apply detected_family_spec; (split; [done|]);
    (split; [by apply keyword_nonempty|]);
    cbn [set_order P1 P2 order_with_first find].
  - by rewrite Hs1.
  - by rewrite Hs2.
Qed.

Lemma detection_depends_on_order_witness :
  detected_family
    {| set_order := order_with_first "mistral"; base_path := package_dir |}
    "mistral-mixtral-merge:7b" = Some "mistral" ∧
  detected_family
    {| set_order := order_with_first "mixtral"; base_path := package_dir |}
    "mistral-mixtral-merge:7b" = Some "mixtral".
Proof.
  refine (proj2 (proj2 (detection_depends_on_order package_dir
            "mistral-mixtral-merge:7b" "mistral" "mixtral" _ _ _ _ _)));
    try reflexivity; apply (bool_decide_unpack _); vm_compute; exact I.
Defined.

(** ** What a sequence of calls keeps *)

Lemma get_tokenizer_state P env self model_name :
  let self' := (_get_tokenizer P env self model_name).1.2 in
  _db self' = _db self ∧
  _default_tokenizer self' = _default_tokenizer self ∧
  ∀ k, is_Some (_tokenizer_cache self' !! k) →
       is_Some (_tokenizer_cache self !! k) ∨ k ∈ set_order P.
Proof.
  destruct (detected_family P model_name) as [g|] eqn:Hdet.
  - rewrite (get_tokenizer_detected _ _ _ _ _ Hdet).
    destruct (_tokenizer_cache self !! g) eqn:Hg; [by repeat split; left|].
    cbv zeta. destruct (path_exists env _); [|by repeat split; left].
    destruct (from_pretrained env _) as [t|e]; [|by repeat split; left].
    cbn [fst snd cache_store _db _default_tokenizer _tokenizer_cache].
    split; [done|]. split; [done|]. intros k Hk.
    destruct (decide (g = k)) as [<-|Hne].
    + right. by eapply detected_family_in_order.
    + left. by rewrite lookup_insert_ne in Hk.
  - rewrite get_tokenizer_undetected by done. by repeat split; left.
Qed.

Lemma run_calls_state P self calls :
  let final := (run_calls P self calls).1 in
  _db final = _db self ∧
  _default_tokenizer final = _default_tokenizer self ∧
  ∀ k, is_Some (_tokenizer_cache final !! k) →
       is_Some (_tokenizer_cache self !! k) ∨ k ∈ set_order P.
Proof.
  revert self. induction calls as [|[[env text] model_name] rest IH]; intros self.
  { by repeat split; left. }
  rewrite run_calls_cons. cbv zeta. cbn [fst].
  destruct (get_tokenizer_state P env self model_name) as (Hdb & Hdef & Hkeys).
  destruct (IH (_get_tokenizer P env self model_name).1.2)
    as (Hdb' & Hdef' & Hkeys').
  split; [congruence|]. split; [congruence|]. intros k Hk.
  destruct (Hkeys' k Hk) as [Hk'|?]; [|by right]. by apply Hkeys.
Qed.

(** X11: the cache holds families of the keyword set only.  After any
    sequence of calls on a new instance, every key of the tokenizer cache is
    one of the 18 keywords, so the cache never has more than 18 entries. *)
Theorem cache_keys_are_keywords (P : Process) (loaded : Store)
    (get_encoding : outcome Encoding) (calls : list (Env * string * string)) :
  set_order P ≡ₚ TOKENIZER_MAP →
  let final := (run_calls P (__init__ loaded get_encoding) calls).1 in
  (∀ k, is_Some (_tokenizer_cache final !! k) → k ∈ TOKENIZER_MAP) ∧
  (size (_tokenizer_cache final) ≤ 18)%nat.
Proof.
  intros Hperm final.
  assert (∀ k, is_Some (_tokenizer_cache final !! k) → k ∈ TOKENIZER_MAP) as Hkeys.
  { intros k Hk.
    destruct (run_calls_state P (__init__ loaded get_encoding) calls)
      as (_ & _ & H).
    destruct (H k Hk) as [Hinit|Hin]; [|by rewrite <- Hperm].
    cbn [__init__ _tokenizer_cache] in Hinit.
    rewrite lookup_empty in Hinit. by destruct Hinit. }
  split; [done|].
  rewrite <- size_dom.
  transitivity (size (list_to_set TOKENIZER_MAP : gset string)).
  - apply subseteq_size. intros k Hk%elem_of_dom.
    apply elem_of_list_to_set. by apply Hkeys.
  - by rewrite size_list_to_set by apply keywords_NoDup.
Qed.

Lemma cache_keys_are_keywords_witness :
  (size (_tokenizer_cache
           (run_calls written_order fresh_grid
              [(all_bundled, "a", "llama3.1:latest");
               (all_bundled, "b", "qwen2.5:7b");
               (all_bundled, "c", "llama-3-8b:instruct")]).1) ≤ 18)%nat.
Proof.
  refine (proj2 (cache_keys_are_keywords written_order []
                   (Return word_encoding) _ _)).
  reflexivity.
Defined.

(** X12: counting tokens never changes the store or the default tokenizer.
    After any sequence of [count_tokens] calls the instance has the store
    and the default tokenizer it started with, so [get_model_token_limit]
    answers every identifier as before. *)
Theorem calls_keep_the_store (P : Process) (self : LocalGrid)
    (calls : list (Env * string * string)) (model_name : string) :
  _db (run_calls P self calls).1 = _db self ∧
  _default_tokenizer (run_calls P self calls).1 = _default_tokenizer self ∧
  get_model_token_limit (_db (run_calls P self calls).1) model_name
    = get_model_token_limit (_db self) model_name.
Proof.
  destruct (run_calls_state P self calls) as (Hdb & Hdef & _).
  split; [done|]. split; [done|]. by rewrite Hdb.
Qed.

(** ** What a call does outside the instance *)

Lemma get_tokenizer_trace P env self model_name evs :
  loads_guarded None ((_get_tokenizer P env self model_name).2 ++ evs)
    = loads_guarded None evs ∧
  Forall (event_of_family P) (_get_tokenizer P env self model_name).2.
Proof.
  destruct (detected_family P model_name) as [g|] eqn:Hdet.
  - pose proof (detected_family_in_order _ _ _ Hdet) as Hg.
    rewrite (get_tokenizer_detected _ _ _ _ _ Hdet).
    destruct (_tokenizer_cache self !! g); [by split|].
    cbv zeta. destruct (path_exists env _); [|split; [done|]].
    + destruct (from_pretrained env _) as [t|e]; cbn [snd app loads_guarded];
        rewrite String.eqb_refl; (split; [done|]);
        repeat constructor; try done; by exists g.
    + repeat constructor. by exists g.
  - rewrite get_tokenizer_undetected by done. by split.
Qed.

(** X13: the loader is only asked for what the file system has just
    confirmed.  In the events of any sequence of calls, every call of
    [from_pretrained] follows at once on an [os.path.exists] of the same path
    that returned true; and every path checked or loaded is the bundled
    directory of a family of the keyword set. *)
Theorem loads_follow_checks (P : Process) (self : LocalGrid)
    (calls : list (Env * string * string)) :
  loads_guarded None (run_calls P self calls).2 = true ∧
  Forall (event_of_family P) (run_calls P self calls).2.
Proof.
  revert self. induction calls as [|[[env text] model_name] rest IH]; intros self.
  { by split. }
  rewrite run_calls_cons. cbv zeta. cbn [snd].
  destruct (IH (_get_tokenizer P env self model_name).1.2) as [Hg Hf].
  destruct (get_tokenizer_trace P env self model_name
              (run_calls P (_get_tokenizer P env self model_name).1.2 rest).2)
    as [Hg' Hf'].
  split; [by rewrite Hg'|]. by apply Forall_app.
Qed.

(** ** Degraded and repeated calls *)

(** X14: with no bundled directory and an empty cache every count comes
    from the default tier.  If [os.path.exists] is false for every path and
    the cache is empty, [count_tokens] returns, for every text and every
    identifier, the count of the default engine or, where there is none,
    [len(text) // 4]; the instance is unchanged and the loader is not
    called.  The heuristic count [n] satisfies [4 n <= len(text) < 4 n + 4]. *)
Theorem degraded_counts (P : Process) (env : Env) (self : LocalGrid)
    (text model_name : string) :
  (∀ path, path_exists env path = false) →
  _tokenizer_cache self = ∅ →
  (count_tokens P env self text model_name).1
    = (default_count self text, self) ∧
  (∀ path,
     load_calls_of path (count_tokens P env self text model_name).2 = 0%nat) ∧
  (_default_tokenizer self = None →
   ∃ n, default_count self text = Return n ∧
        4 * n ≤ Z.of_nat (String.length text) < 4 * n + 4).
Proof.
  intros Hnone Hcache.
  assert (∃ evs, _get_tokenizer P env self model_name
                 = (default_tokenizer self, self, evs) ∧
                 ∀ path, load_calls_of path evs = 0%nat) as (evs & Hget & Hevs).
  { destruct (detected_family P model_name) as [g|] eqn:Hdet.
    - rewrite (get_tokenizer_detected _ _ _ _ _ Hdet), Hcache, lookup_empty.
      cbv zeta. rewrite Hnone. by eexists.
    - rewrite get_tokenizer_undetected by done. by eexists. }
  unfold count_tokens. rewrite Hget. cbn [fst snd].
  split; [|split].
  - unfold default_tokenizer, default_count.
    by destruct (_default_tokenizer self).
  - apply Hevs.
  - intros Hdef. unfold default_count. rewrite Hdef. eexists. split; [done|].
    unfold FALLBACK_TOKEN_RATIO.
    pose proof (Z.div_mod (Z.of_nat (String.length text)) 4 ltac:(lia)).
    pose proof (Z.mod_pos_bound (Z.of_nat (String.length text)) 4 ltac:(lia)).
    lia.
Qed.

Lemma degraded_counts_witness :
  (count_tokens llama_first nothing_bundled bare_grid "hey" "llama3.1:8b").1
    = (Return 0, bare_grid).
Proof.
  refine (proj1 (degraded_counts llama_first nothing_bundled bare_grid
                   "hey" "llama3.1:8b" _ _)); reflexivity.
Defined.

Lemma get_tokenizer_again P env self model_name :
  (_get_tokenizer P env (_get_tokenizer P env self model_name).1.2 model_name).1
  = (_get_tokenizer P env self model_name).1.
Proof.
  destruct (detected_family P model_name) as [g|] eqn:Hdet.
  - rewrite (get_tokenizer_detected _ _ self _ _ Hdet).
    destruct (_tokenizer_cache self !! g) eqn:Hg.
    { cbn [fst snd]. by rewrite (get_tokenizer_detected _ _ _ _ _ Hdet), Hg. }
    cbv zeta. destruct (path_exists env _) eqn:Hex.
    + destruct (from_pretrained env _) as [t|e] eqn:Hload; cbn [fst snd].
      * rewrite (get_tokenizer_detected _ _ _ _ _ Hdet).
        cbn [cache_store _tokenizer_cache]. by rewrite lookup_insert_eq.
      * rewrite (get_tokenizer_detected _ _ _ _ _ Hdet), Hg.
        cbv zeta. by rewrite Hex, Hload.
    + cbn [fst snd]. rewrite (get_tokenizer_detected _ _ _ _ _ Hdet), Hg.
      cbv zeta. by rewrite Hex.
  - rewrite !get_tokenizer_undetected by done. done.
Qed.

(** X15: a repeated call gives the same count.  Calling [count_tokens]
    again with the same text and identifier, in the same environment, on the
    instance the first call left returns the same result (the same count, or
    the same exception of the encoder) and leaves the instance as the first
    call left it. *)
Theorem count_tokens_idempotent (P : Process) (env : Env) (self : LocalGrid)
    (text model_name : string) :
  (count_tokens P env (count_tokens P env self text model_name).1.2
     text model_name).1
  = (count_tokens P env self text model_name).1.
Proof.
  pose proof (get_tokenizer_again P env self model_name) as Hagain.
  unfold count_tokens.
  destruct (_get_tokenizer P env self model_name) as [[tok self'] evs].
  cbn [fst snd] in *.
  destruct (_get_tokenizer P env self' model_name) as [[tok2 self2] evs2].
  cbn [fst snd] in *. by injection Hagain as -> ->.
Qed.

(** ** From the data directory to an answer *)

Lemma found_record_truthy td : td ≠ ∅ → truthy td = true.
Proof. intros Hne. unfold truthy. by rewrite bool_decide_eq_false_2. Qed.

(** X16: a model listed in a provider file is answered from that file.  Let
    the data directory hold one provider file, of any name ending in
    [_data.json], every model of which has a [parent_model]; let [parent]
    contain no [:], and let [model] be the last model named [parent], with a
    non-empty record [td] under [tag] whose context the [try] block turns
    into [v].  Then the store loads and [get_model_token_limit] returns [v]
    for [parent:tag]. *)
Theorem loaded_model_is_answered (json_filename parent tag : string)
    (read_json : string → load_error + list RawModel)
    (model_list : list RawModel) (m : ProviderRecord) (model : RawModel)
    (vs : gmap string VariantRecord) (td : VariantRecord) (v : Z) :
  ends_with "_data.json" json_filename = true →
  has_char ":" parent = false →
  read_json json_filename = inr model_list →
  index_models model_list ∅ = inr m →
  last (filter (λ x, raw_parent_model x = Some parent) model_list) = Some model →
  raw_variants model = Some vs →
  vs !! tag = Some td → td ≠ ∅ →
  interpret_context (context_of td) = Return v →
  ∃ db, _load_all_dbs (inr [json_filename]) read_json = inr db ∧
        get_model_token_limit db (parent +:+ ":" +:+ tag) = Return v.
Proof.
  intros Hf Hparent Hread Hm Hlast Hvs Htd Hne Hv.
  exists [(remove_sub "_data.json" json_filename, m)]. split.
  { unfold _load_all_dbs. cbn [scan_files]. by rewrite Hf, Hread, Hm. }
  unfold get_model_token_limit.
  rewrite has_sep_append, split_head_append, split_tail_append by done.
  cbn [values map snd]. rewrite scan_providers_cons.
  unfold provider_yield, found_record, tag_lookup.
  rewrite (index_models_lookup _ _ _ parent Hm), Hlast.
  cbn [as_record variants]. rewrite Hvs, Htd, (found_record_truthy _ Hne).
  by rewrite Hv.
Qed.

Lemma loaded_model_is_answered_witness :
  ∃ db, _load_all_dbs (inr ["ollama_data.json"]) sample_read_json = inr db ∧
        get_model_token_limit db ("llama3.1" +:+ ":" +:+ "latest")
        = Return 131072.
Proof.
  apply (loaded_model_is_answered "ollama_data.json" "llama3.1" "latest"
           sample_read_json
           ollama_models (snd (hd (EmptyString, ∅) sample_store))
           (raw_model "llama3.1" [("latest", {[ "context" := PyStr "128K" ]})])
           {[ "latest" := {[ "context" := PyStr "128K" ]} ]}
           {[ "context" := PyStr "128K" ]} 131072);
    try (vm_compute; reflexivity).
  apply (bool_decide_eq_false_1 _). vm_compute. reflexivity.
Defined.

(** A parent name with a separator cannot be asked for: the identifier is
    split at its first [:]. *)
Example parent_with_separator_is_not_found :
  get_model_token_limit
    [("ollama", single_entry "a:b" "t" {[ "context" := PyStr "64K" ]})]
    ("a:b" +:+ ":" +:+ "t") = Return 8192.
Proof. vm_compute. reflexivity. Qed.

(** X17: without the data package the instance still answers.  When listing
    the data package raises [FileNotFoundError] or [ModuleNotFoundError], the
    constructor returns an instance with an empty store and an empty cache,
    and [get_model_token_limit] returns 8192 for every identifier. *)
Theorem missing_data_package (e : load_error)
    (read_json : string → load_error + list RawModel)
    (get_encoding : outcome Encoding) :
  is_missing_error e = true →
  ∃ grid, new_LocalGrid (inl e) read_json get_encoding = inr grid ∧
          _db grid = [] ∧ _tokenizer_cache grid = ∅ ∧
          ∀ model_name,
            get_model_token_limit (_db grid) model_name = Return 8192.
Proof.
  intros He. exists (__init__ [] get_encoding).
  unfold new_LocalGrid, _load_all_dbs. rewrite He.
  repeat split. intros model_name.
  unfold get_model_token_limit. cbn. by destruct (has_char ":" model_name).
Qed.

Lemma missing_data_package_witness :
  ∃ grid, new_LocalGrid (inl ModuleNotFoundError) sample_read_json
            (Return word_encoding) = inr grid ∧
          _db grid = [] ∧ _tokenizer_cache grid = ∅ ∧
          ∀ model_name,
            get_model_token_limit (_db grid) model_name = Return 8192.
Proof. by apply missing_data_package. Defined.

(** ** The interpretation of one context value *)

Lemma upper_idempotent s : upper (upper s) = upper s.
Proof.
  induction s as [|c s IH]; [done|]. cbn [upper]. rewrite IH. f_equal.
  by_ascii c.
Qed.

(** X18: a context string is read without regard to case.  The [try] block
    gives the same result for a string and for its upper-cased form, so
    "128k" and "128K" are the same context size. *)
Theorem context_case_insensitive (s : string) :
  interpret_context (PyStr (upper s)) = interpret_context (PyStr s).
Proof.
  unfold interpret_context. cbn [str int].
  rewrite upper_idempotent.
  destruct (has_char "K" (upper s)); [done|].
  by rewrite int_of_str_upper.
Qed.

(** X19: an integer context is scaled below the threshold and kept above
    it.  If the first provider that holds a non-empty record for the
    parent+tag stores the integer [n] as its context, the call returns
    [n * 1024] when [n <= 1000] and [n] otherwise; no integer is mistaken for a
    K-suffixed value. *)
Theorem integer_context_limit (db : Store) (model_name : string)
    (pre post : list ProviderRecord) (p : ProviderRecord) (td : VariantRecord)
    (n : Z) :
  has_char ":" model_name = true →
  values db = pre ++ p :: post →
  Forall (λ q, found_record q (split_head ":" model_name)
                 (split_tail ":" model_name) = None) pre →
  found_record p (split_head ":" model_name) (split_tail ":" model_name)
    = Some td →
  td !! "context" = Some (PyInt n) →
  get_model_token_limit db model_name
    = Return (if n <=? 1000 then n * 1024 else n).
Proof.
  intros Hsep Hdb Hpre Htd Hctx.
  unfold get_model_token_limit. rewrite Hsep, Hdb.
  rewrite scan_providers_skip, scan_providers_cons.
  - unfold provider_yield, context_of. rewrite Htd, Hctx. cbn [default].
    change (id (PyInt n)) with (PyInt n).
    rewrite interpret_context_int. by destruct (n <=? 1000).
  - eapply Forall_impl; [exact Hpre|]. intros q Hq.
    unfold provider_yield. by rewrite Hq.
Qed.

Lemma integer_context_limit_witness :
  get_model_token_limit MOCK_DB_DATA "llama3.1:8b" = Return 131072 ∧
  get_model_token_limit MOCK_DB_DATA "gemma:latest" = Return 8192.
Proof.
  split.
  - refine (integer_context_limit MOCK_DB_DATA "llama3.1:8b" [] []
              (snd (hd (EmptyString, ∅) MOCK_DB_DATA))
              {[ "context" := PyInt 128 ]} 128 _ _ _ _ _);
      first [reflexivity|constructor|vm_compute; reflexivity].
  - refine (integer_context_limit MOCK_DB_DATA "gemma:latest" [] []
              (snd (hd (EmptyString, ∅) MOCK_DB_DATA))
              {[ "context" := PyInt 8192 ]} 8192 _ _ _ _ _);
      first [reflexivity|constructor|vm_compute; reflexivity].
Defined.


(** * The query over the store as loaded *)

Example raw_interpret_context_examples :
  map (raw_interpret_context text_of_8192_5)
      [JStr "128K"; JInt 128; JFloat (S754_finite false 16385 (-1));
       JFloat (S754_infinity false); JFloat S754_nan; JNull; JList []]
  = [Return 131072; Return 131072; Return 8192; Raise OverflowError;
     Raise ValueError; Raise TypeError; Raise TypeError].
Proof. vm_compute. reflexivity. Qed.

Lemma assoc_elem_of {A} k (v : A) d : assoc k d = Some v → (k, v) ∈ d.
Proof.
  induction d as [|[k' v'] d IH]; [done|]. cbn [assoc].
  destruct (String.eqb_spec k' k) as [->|_].
  - intros [= ->]. left.
  - intros H. right. by apply IH.
Qed.

Lemma elem_of_assoc {A} k (v : A) d :
  NoDup (map fst d) → (k, v) ∈ d → assoc k d = Some v.
Proof.
  induction d as [|[k' v'] d IH]; [by intros _ H; inversion H|].
  cbn [map fst assoc]. intros [Hk' Hd]%NoDup_cons Hin.
  apply elem_of_cons in Hin as [[= -> ->]|Hin].
  - by rewrite String.eqb_refl.
  - destruct (String.eqb_spec k' k) as [->|_]; [|by apply IH].
    destruct Hk'. apply list_elem_of_fmap. by exists (k, v).
Qed.

Lemma float_int_raise f e :
  float_int f = Raise e →
  is_value_or_type_error e = true ∨ ∃ s, f = S754_infinity s.
Proof.
  destruct f as [s|s| |s m x]; cbn [float_int]; intros H; try done.
  - right. by exists s.
  - injection H as <-. by left.
Qed.

Lemma json_int_raise v e :
  json_int v = Raise e →
  is_value_or_type_error e = true ∨ ∃ s, v = JFloat (S754_infinity s).
Proof.
  destruct v as [|b|z|f|s|l|d]; cbn [json_int]; intros H; try done;
    try (injection H as <-; by left).
  - destruct (float_int_raise _ _ H) as [?|[s ->]]; [by left|].
    right. by exists s.
  - left. by rewrite (int_of_str_raise _ _ H).
Qed.

Lemma raw_interpret_context_parsed render c :
  raw_interpret_context render c =
  bind (raw_parsed_integer render c) (λ n,
    if has_char "K" (upper (json_str render c)) || (n <=? 1000)
    then Return (n * 1024) else Return n).
Proof.
  unfold raw_interpret_context, raw_parsed_integer.
  destruct (has_char "K" (upper (json_str render c))); [done|].
  destruct (json_int c); [|done]. cbn [bind orb]. by destruct (_ <=? _).
Qed.

(** The [try] block lets an exception through only for an infinite float. *)
Lemma raw_interpret_context_raise render c e :
  raw_interpret_context render c = Raise e →
  is_value_or_type_error e = true ∨ ∃ s, c = JFloat (S754_infinity s).
Proof.
  unfold raw_interpret_context.
  destruct (has_char "K" (upper (json_str render c))).
  - cbn [json_int]. destruct (int_of_str _) eqn:Hs; cbn [bind]; [done|].
    intros [= <-]. left. by rewrite (int_of_str_raise _ _ Hs).
  - destruct (json_int c) eqn:Hc; cbn [bind].
    + by destruct (_ <=? _).
    + intros [= <-]. by apply json_int_raise in Hc.
Qed.

Lemma raw_interpret_context_sign render c z :
  raw_interpret_context render c = Return z →
  ∃ n, raw_parsed_integer render c = Return n ∧
       (0 < z ∨ (n ≤ 0 ∧ z = n * 1024)).
Proof.
  rewrite raw_interpret_context_parsed.
  destruct (raw_parsed_integer render c) as [n|]; [|done]. cbn [bind].
  intros Hz. exists n. split; [done|].
  destruct (has_char "K" (upper (json_str render c)) || (n <=? 1000)) eqn:Hk;
    injection Hz as <-.
  - destruct (decide (0 < n)); [left|right]; lia.
  - apply orb_false_iff in Hk as [_ Hk]. left. lia.
Qed.

(** On a provider whose models pass [model_ok], the lookup chain raises
    nothing, and what it finds passes [record_ok]. *)
Lemma raw_tag_data_ok provider_data parent tag :
  forallb (λ m, model_ok (snd m)) provider_data = true →
  ∃ found, raw_tag_data provider_data parent tag = Return found ∧
           ∀ v, found = Some v → record_ok v = true.
Proof.
  intros Hok. unfold raw_tag_data.
  destruct (assoc parent provider_data) as [model|] eqn:Hmodel;
    cbn [default from_option id].
  - apply assoc_elem_of, list_elem_of_In in Hmodel.
    pose proof (proj1 (forallb_forall _ _) Hok _ Hmodel) as Hm.
    cbn [snd] in Hm. unfold model_ok in Hm.
    destruct (assoc "variants" model) as [[| | | | | |vs]|]; try done.
    + cbn. eexists. split; [reflexivity|].
      intros v [= Hv]. apply assoc_elem_of, list_elem_of_In in Hv.
      apply (proj1 (forallb_forall _ _) Hm _ Hv).
    + cbn. eexists. split; [reflexivity|]. done.
  - cbn. eexists. split; [reflexivity|]. done.
Qed.

Lemma raw_scan_providers_result render providers parent tag :
  Forall (λ pd, forallb (λ m, model_ok (snd m)) pd = true) providers →
  ∃ z, raw_scan_providers render providers parent tag = Return z ∧
       (0 < z ∨
        ∃ pd td n,
          pd ∈ providers ∧
          raw_tag_data pd parent tag = Return (Some (JDict td)) ∧
          raw_parsed_integer render (default (JStr "8K") (assoc "context" td))
            = Return n ∧
          n ≤ 0 ∧ z = n * 1024).
Proof.
  induction 1 as [|pd providers Hpd _ (z & Hz & IH)].
  { exists DEFAULT_TOKEN_LIMIT. split; [done|]. by left. }
  assert (∃ z', Return z = Return z' ∧
                (0 < z' ∨
                 ∃ pd' td n,
                   pd' ∈ pd :: providers ∧
                   raw_tag_data pd' parent tag = Return (Some (JDict td)) ∧
                   raw_parsed_integer render
                     (default (JStr "8K") (assoc "context" td)) = Return n ∧
                   n ≤ 0 ∧ z' = n * 1024)) as Hrest.
  { exists z. split; [done|].
    destruct IH as [?|(pd' & td & n & Hin & ?)]; [by left|].
    right. exists pd', td, n. split; [by right|done]. }
  cbn [raw_scan_providers]. rewrite Hz.
  destruct (raw_tag_data_ok pd parent tag Hpd) as (found & Htag & Hfound).
  rewrite Htag. destruct found as [v|]; [|done].
  specialize (Hfound v eq_refl).
  destruct (json_truthy v) eqn:Htruthy; [|done].
  destruct v as [| | | | | |td]; cbn [record_ok] in Hfound;
    try (rewrite Htruthy in Hfound; done).
  cbn [json_get].
  destruct (raw_interpret_context render (default (JStr "8K") (assoc "context" td)))
    as [v|e] eqn:Hint; cbn [try_except_value_type].
  - exists v. split; [done|].
    destruct (raw_interpret_context_sign _ _ _ Hint) as (n & Hn & [?|[? ?]]);
      [by left|].
    right. exists pd, td, n. split; [left|done].
  - destruct (raw_interpret_context_raise _ _ _ Hint) as [->|[s Hs]]; [done|].
    destruct (assoc "context" td) as [[| | |[]| | |]|]; done.
Qed.

(** C1, as stated, fails, in its promise of a positive result and in its
    promise of no exception.  A stored context of 0 is returned as 0.
    ["variants": null] and a tag bound to a string raise [AttributeError] in
    the lookups before the [try] block; a context of [1e999], an infinite
    float, raises [OverflowError] in [int], which the handler does not
    catch. *)
Lemma limit_counterexample :
  raw_get_model_token_limit no_text raw_zero_store "tiny:latest" = Return 0 ∧
  ¬ (0 < 0) ∧
  raw_get_model_token_limit no_text raw_null_variants_store "tiny:latest"
    = Raise AttributeError ∧
  raw_get_model_token_limit no_text raw_string_tag_store "tiny:latest"
    = Raise AttributeError ∧
  raw_get_model_token_limit no_text raw_infinite_context_store "tiny:latest"
    = Raise OverflowError.
Proof. repeat split; try (vm_compute; reflexivity). lia. Qed.

(** C1, amended: for every input string and every loaded store in which
    each [variants] value, where present, is an object, each tag is bound to
    an object or to a value that counts as false, and no context is an
    infinite float, [get_model_token_limit] raises nothing and returns an
    integer; the integer is positive unless it comes from a stored context
    value whose integer [n], read under the interpretation rule, is zero or
    negative, in which case it is [n * 1024]. *)
Theorem loaded_limit_returns_integer (render : json → string) (db : RawStore)
    (model_name : string) :
  well_formed db = true →
  ∃ z, raw_get_model_token_limit render db model_name = Return z ∧
       (0 < z ∨
        ∃ pd td n,
          pd ∈ values db ∧
          raw_tag_data pd (split_head ":" model_name) (split_tail ":" model_name)
            = Return (Some (JDict td)) ∧
          raw_parsed_integer render (default (JStr "8K") (assoc "context" td))
            = Return n ∧
          n ≤ 0 ∧ z = n * 1024).
Proof.
  intros Hwf. unfold raw_get_model_token_limit.
  destruct (has_char ":" model_name).
  - apply raw_scan_providers_result.
    unfold values. apply Forall_forall. intros pd [p [-> Hp]]%list_elem_of_fmap.
    apply list_elem_of_In in Hp.
    apply (proj1 (forallb_forall _ _) Hwf _ Hp).
  - exists DEFAULT_TOKEN_LIMIT. split; [done|]. by left.
Qed.

Lemma loaded_limit_returns_integer_witness :
  ∃ z, raw_get_model_token_limit text_of_8192_5 raw_float_context_store
         "tiny:latest" = Return z ∧
       (0 < z ∨
        ∃ pd td n,
          pd ∈ values raw_float_context_store ∧
          raw_tag_data pd (split_head ":" "tiny:latest")
            (split_tail ":" "tiny:latest") = Return (Some (JDict td)) ∧
          raw_parsed_integer text_of_8192_5
            (default (JStr "8K") (assoc "context" td)) = Return n ∧
          n ≤ 0 ∧ z = n * 1024).
Proof. apply loaded_limit_returns_integer. reflexivity. Defined.

Example loaded_float_context :
  raw_get_model_token_limit text_of_8192_5 raw_float_context_store "tiny:latest"
    = Return 8192 ∧
  raw_get_model_token_limit text_of_8192_5 raw_float_context_store "tiny:old"
    = Return 8192.
Proof. split; vm_compute; reflexivity. Qed.

Example ill_formed_stores :
  map well_formed [raw_zero_store; raw_null_variants_store;
                   raw_string_tag_store; raw_infinite_context_store;
                   raw_float_context_store]
  = [true; false; false; false; true].
Proof. vm_compute. reflexivity. Qed.

(** ** The data model is the loaded store under the schema *)

Lemma assoc_map_to_list {A} (m : gmap string A) k :
  assoc k (map_to_list m) = m !! k.
Proof.
  destruct (m !! k) as [v|] eqn:Hm.
  - apply elem_of_assoc; [apply NoDup_fst_map_to_list|].
    by apply elem_of_map_to_list.
  - destruct (assoc k (map_to_list m)) as [v|] eqn:Ha; [|done].
    apply assoc_elem_of, elem_of_map_to_list in Ha. congruence.
Qed.

Lemma embed_value_interpret render c :
  raw_interpret_context render (embed_value c) = interpret_context c.
Proof. by destruct c as [|[]| |]. Qed.

Lemma embed_record_truthy td : json_truthy (embed_record td) = truthy td.
Proof.
  unfold embed_record, truthy. cbn [json_truthy].
  destruct (map_to_list (embed_value <$> td)) as [|x l] eqn:Hl.
  - apply map_to_list_empty_iff, fmap_empty_iff in Hl as ->.
    by rewrite bool_decide_eq_true_2.
  - rewrite bool_decide_eq_false_2; [done|]. intros ->.
    by rewrite fmap_empty, map_to_list_empty in Hl.
Qed.

Lemma embed_provider_tag_data provider_data parent tag :
  raw_tag_data (embed_provider provider_data) parent tag
  = Return (embed_record <$> tag_lookup provider_data parent tag).
Proof.
  unfold raw_tag_data, embed_provider, tag_lookup.
  rewrite assoc_map_to_list, lookup_fmap.
  destruct (provider_data !! parent) as [m|]; [|done].
  cbn [fmap option_fmap option_map default from_option id embed_model assoc].
  change (String.eqb "parent_model" "variants") with false. cbv iota.
  destruct (variants m) as [vs|]; [|done].
  cbn [assoc]. rewrite String.eqb_refl.
  cbn [default from_option id json_get].
  by rewrite assoc_map_to_list, lookup_fmap.
Qed.

Lemma embed_scan render providers parent tag :
  raw_scan_providers render (map embed_provider providers) parent tag
  = scan_providers providers parent tag.
Proof.
  induction providers as [|pd providers IH]; [done|].
  cbn [map raw_scan_providers scan_providers].
  rewrite embed_provider_tag_data, IH.
  destruct (tag_lookup pd parent tag) as [td|]; [|done].
  cbn [fmap option_fmap option_map]. rewrite embed_record_truthy.
  destruct (truthy td); [|done].
  unfold embed_record at 1. cbn [json_get].
  rewrite assoc_map_to_list, lookup_fmap. unfold context_of.
  destruct (td !! "context") as [c|];
    cbn [fmap option_fmap option_map default from_option id].
  - by rewrite embed_value_interpret.
  - done.
Qed.

Lemma embed_record_ok td : record_ok (embed_record td) = true.
Proof.
  unfold embed_record. cbn [record_ok].
  rewrite assoc_map_to_list, lookup_fmap.
  by destruct (td !! "context") as [[| | |]|].
Qed.

Lemma embed_model_ok m : model_ok (embed_model m) = true.
Proof.
  unfold model_ok, embed_model. cbn [assoc].
  change (String.eqb "parent_model" "variants") with false. cbv iota.
  destruct (variants m) as [vs|]; [|done].
  cbn [assoc]. rewrite String.eqb_refl.
  apply forallb_forall. intros [k v] Hkv%list_elem_of_In%elem_of_map_to_list.
  apply lookup_fmap_Some in Hkv as (td & <- & _). apply embed_record_ok.
Qed.

Lemma embed_well_formed db : well_formed (embed db) = true.
Proof.
  unfold well_formed, embed. apply forallb_forall.
  intros p [q [-> _]]%list_elem_of_In%list_elem_of_fmap. cbn [snd].
  apply forallb_forall.
  intros [k v] Hkv%list_elem_of_In%elem_of_map_to_list. cbn [snd].
  apply lookup_fmap_Some in Hkv as (m & <- & _). apply embed_model_ok.
Qed.

(** X20: the data model is the loaded store under the schema.  A store of
    the data model, written out as the JSON objects that [json.load] would
    deliver, passes the well-formedness test, and the query over the loaded
    store returns on it exactly what [get_model_token_limit] returns in the
    data model, for every identifier. *)
Theorem schema_store_refines (render : json → string) (db : Store)
    (model_name : string) :
  well_formed (embed db) = true ∧
  raw_get_model_token_limit render (embed db) model_name
    = get_model_token_limit db model_name.
Proof.
  split; [apply embed_well_formed|].
  unfold raw_get_model_token_limit, get_model_token_limit.
  destruct (has_char ":" model_name); [|done].
  assert (values (embed db) = map embed_provider (values db)) as ->.
  { unfold values, embed. rewrite !map_map. done. }
  apply embed_scan.
Qed.
